(** * Logwell Python SDK: configuration validation

    A shallow embedding of [sdks/python/src/logwell/config.py] and the
    properties of [validate_config], [validate_api_key_format] and
    [_is_valid_url].

    Python values are a tagged union, exceptions are an explicit result
    type, the configuration [dict] is a finite map with string keys, and
    floats are IEEE 754 binary64 numbers. *)

From Stdlib Require Import ZArith Ascii String Floats Lia.
From stdpp Require Import base option list strings gmap fin_maps.

Local Open Scope string_scope.
Local Open Scope Z_scope.

(** ** Python values *)

(** The values a configuration can hold: [None], [bool], [int], [float],
    [str], [bytes], and an opaque callable (the [on_error] and [on_flush]
    hooks), named by an identifier. *)
Inductive PyVal : Type :=
| PyNone
| PyBool (b : bool)
| PyInt (n : Z)
| PyFloat (x : float)
| PyStr (s : string)
| PyBytes (s : string)
| PyFunc (id : positive).

(** Modelled from the spec: [logwell.errors] is not part of the sources;
    the only error code this module uses, and the only one the spec
    defines, is [INVALID_CONFIG]. *)
Inductive LogwellErrorCode : Type :=
| INVALID_CONFIG.

(** Exceptions that can travel through this module.  [ValueError] stands
    for the class and its subclasses ([UnicodeDecodeError] among them). *)
Inductive PyExc : Type :=
| LogwellError (message : string) (code : LogwellErrorCode)
| KeyError (key : string)
| TypeError
| ValueError
| AttributeError.

(** A computation either returns or raises. *)
Inductive PyResult (A : Type) : Type :=
| Ok (a : A)
| Raise (e : PyExc).
Arguments Ok {A} a.
Arguments Raise {A} e.

(** Sequencing: the first exception raised ends the computation. *)
#[global] Instance PyResult_ret : MRet PyResult := λ A a, Ok a.

#[global] Instance PyResult_bind : MBind PyResult := λ A B k m,
  match m with
  | Ok a => k a
  | Raise e => Raise e
  end.

#[global] Instance PyResult_fmap : FMap PyResult := λ A B f m,
  match m with
  | Ok a => Ok (f a)
  | Raise e => Raise e
  end.

(** [if cond: raise exc] followed by the rest of the function body. *)
Definition raise_if {A : Type} (cond : PyResult bool) (e : PyExc)
    (k : PyResult A) : PyResult A :=
  cond ≫= λ c : bool, if c then Raise e else k.

(** ** Built-in operations *)

Module Py.

(** Truth value testing, [bool(v)]. *)
Definition truthy (v : PyVal) : bool :=
  match v with
  | PyNone => false
  | PyBool b => b
  | PyInt n => negb (n =? 0)
  | PyFloat x => negb (PrimFloat.eqb x 0%float)
  | PyStr s => negb (String.eqb s "")
  | PyBytes s => negb (String.eqb s "")
  | PyFunc _ => true
  end.

(** [isinstance(v, str)]. *)
Definition is_str (v : PyVal) : bool :=
  match v with
  | PyStr _ => true
  | _ => false
  end.

(** [v <= 0].  [bool] is a subclass of [int]; a [float] is compared as a
    float; every other type raises [TypeError]. *)
Definition le_zero (v : PyVal) : PyResult bool :=
  match v with
  | PyBool b => Ok (negb b)
  | PyInt n => Ok (n <=? 0)
  | PyFloat x => Ok (PrimFloat.leb x 0%float)
  | _ => Raise TypeError
  end.

(** [v < 0]. *)
Definition lt_zero (v : PyVal) : PyResult bool :=
  match v with
  | PyBool _ => Ok false
  | PyInt n => Ok (n <? 0)
  | PyFloat x => Ok (PrimFloat.ltb x 0%float)
  | _ => Raise TypeError
  end.

(** [k in d], [d[k]] and [d.get(k, default)] on a [dict]. *)
Definition contains (d : gmap string PyVal) (k : string) : bool :=
  bool_decide (is_Some (d !! k)).

Definition getitem (d : gmap string PyVal) (k : string) : PyResult PyVal :=
  match d !! k with
  | Some v => Ok v
  | None => Raise (KeyError k)
  end.

Definition get (d : gmap string PyVal) (k : string) (default : PyVal) : PyVal :=
  match d !! k with
  | Some v => v
  | None => default
  end.

(** Short-circuit [a or b] and [a and b] where [b] may raise. *)
Definition or_else (a : bool) (b : PyResult bool) : PyResult bool :=
  if a then Ok true else b.

Definition and_then (a : bool) (b : PyResult bool) : PyResult bool :=
  if a then b else Ok false.

End Py.

(** ** Regular expressions

    The fragment of [re] that [API_KEY_REGEX] uses: anchors, literals,
    character sets and counted repetition.  Every node has a fixed width,
    so matching needs no backtracking. *)

Module Re.

Inductive set_item : Type :=
| Range (lo hi : ascii)
| Single (c : ascii).

Inductive node : Type :=
| Bol
| Eol
| Lit (c : ascii)
| Set_ (items : list set_item)
| Repeat (n : nat) (r : node).

Definition code (c : ascii) : N := N_of_ascii c.

Definition in_item (c : ascii) (i : set_item) : bool :=
  match i with
  | Range lo hi => ((code lo <=? code c) && (code c <=? code hi))%N
  | Single d => Ascii.eqb c d
  end.

Definition in_set (items : list set_item) (c : ascii) : bool :=
  existsb (in_item c) items.

Definition newline : ascii := ascii_of_N 10.

(** The state of a match is whether the cursor is still at index 0 and
    the text that remains to its right. *)
Definition cursor : Type := bool * string.

Fixpoint iterate (n : nat) (f : cursor → option cursor) (cur : cursor) : option cursor :=
  match n with
  | O => Some cur
  | S n' =>
      match f cur with
      | Some cur' => iterate n' f cur'
      | None => None
      end
  end.

(** One node at the cursor.  Without [re.MULTILINE], [^] matches at
    index 0 only and [$] matches at the end of the text or just before a
    newline that is its last character. *)
Fixpoint step (r : node) (cur : cursor) : option cursor :=
  match r with
  | Bol => if cur.1 then Some cur else None
  | Eol =>
      match cur.2 with
      | EmptyString => Some cur
      | String c EmptyString => if Ascii.eqb c newline then Some cur else None
      | _ => None
      end
  | Lit c =>
      match cur.2 with
      | String d rest => if Ascii.eqb d c then Some (false, rest) else None
      | EmptyString => None
      end
  | Set_ items =>
      match cur.2 with
      | String d rest => if in_set items d then Some (false, rest) else None
      | EmptyString => None
      end
  | Repeat n r' => iterate n (step r') cur
  end.

Fixpoint run (p : list node) (cur : cursor) : option cursor :=
  match p with
  | [] => Some cur
  | r :: p' =>
      match step r cur with
      | Some cur' => run p' cur'
      | None => None
      end
  end.

(** [bool(pattern.match(s))]: the pattern matches a prefix of [s]. *)
Definition match_ (p : list node) (s : string) : bool :=
  match run p (true, s) with
  | Some _ => true
  | None => false
  end.

End Re.

(** ** config.py *)

(** [DEFAULT_CONFIG] *)
Definition DEFAULT_CONFIG : gmap string PyVal :=
  <["capture_source_location" := PyBool false]>
  (<["max_retries" := PyInt 3]>
  (<["max_queue_size" := PyInt 1000]>
  (<["flush_interval" := PyFloat 5%float]>
  (<["batch_size" := PyInt 50]> ∅)))).

(** [[A-Za-z0-9_-]] *)
Definition key_chars : list Re.set_item :=
  [Re.Range "A" "Z"; Re.Range "a" "z"; Re.Range "0" "9"; Re.Single "_"; Re.Single "-"]%char.

(** [API_KEY_REGEX = re.compile(r"^lw_[A-Za-z0-9_-]{32}$")] *)
Definition API_KEY_REGEX : list Re.node :=
  [Re.Bol; Re.Lit "l"; Re.Lit "w"; Re.Lit "_";
   Re.Repeat 32 (Re.Set_ key_chars); Re.Eol]%char.

Definition validate_api_key_format (api_key : PyVal) : bool :=
  if negb (Py.truthy api_key) || negb (Py.is_str api_key) then false
  else
    match api_key with
    | PyStr s => Re.match_ API_KEY_REGEX s
    | _ => false
    end.

(** *** [urllib.parse]

    [urlparse] belongs to the Python standard library, not to this
    repository.  The development is parametric in it: any function from
    values to parse results (or exceptions) can stand for it.  Of a parse result only the [scheme] and
    [netloc] components are read; for a [bytes] argument they hold the
    content of the [bytes] components. *)
Record ParseResult : Type := { scheme : string; netloc : string }.

Class UrlLib : Type :=
  urlparse : PyVal → PyResult ParseResult.

Section Config.

Context {lib : UrlLib}.

Definition _is_valid_url (url : PyVal) : PyResult bool :=
  match urlparse url with
  | Ok result =>
      Ok (Py.truthy (PyStr (scheme result)) && Py.truthy (PyStr (netloc result)))
  | Raise ValueError | Raise AttributeError => Ok false
  | Raise e => Raise e
  end.

Definition validate_config (config : gmap string PyVal)
    : PyResult (gmap string PyVal) :=
  (* Validate required fields *)
  raise_if
    (Py.or_else (negb (Py.contains config "api_key"))
       (v ← Py.getitem config "api_key"; Ok (negb (Py.truthy v))))
    (LogwellError "api_key is required" INVALID_CONFIG) $
  raise_if
    (Py.or_else (negb (Py.contains config "endpoint"))
       (v ← Py.getitem config "endpoint"; Ok (negb (Py.truthy v))))
    (LogwellError "endpoint is required" INVALID_CONFIG) $
  (* Validate API key format *)
  raise_if
    (v ← Py.getitem config "api_key"; Ok (negb (validate_api_key_format v)))
    (LogwellError "Invalid API key format. Expected: lw_[32 characters]"
       INVALID_CONFIG) $
  (* Validate endpoint URL *)
  raise_if
    (v ← Py.getitem config "endpoint"; b ← _is_valid_url v; Ok (negb b))
    (LogwellError "Invalid endpoint URL" INVALID_CONFIG) $
  (* Validate numeric options *)
  raise_if
    (Py.and_then (Py.contains config "batch_size")
       (v ← Py.getitem config "batch_size"; Py.le_zero v))
    (LogwellError "batch_size must be positive" INVALID_CONFIG) $
  raise_if
    (Py.and_then (Py.contains config "flush_interval")
       (v ← Py.getitem config "flush_interval"; Py.le_zero v))
    (LogwellError "flush_interval must be positive" INVALID_CONFIG) $
  raise_if
    (Py.and_then (Py.contains config "max_queue_size")
       (v ← Py.getitem config "max_queue_size"; Py.le_zero v))
    (LogwellError "max_queue_size must be positive" INVALID_CONFIG) $
  raise_if
    (Py.and_then (Py.contains config "max_retries")
       (v ← Py.getitem config "max_retries"; Py.lt_zero v))
    (LogwellError "max_retries must be non-negative" INVALID_CONFIG) $
  (* Return merged config with defaults *)
  api_key ← Py.getitem config "api_key";
  endpoint ← Py.getitem config "endpoint";
  d_batch_size ← Py.getitem DEFAULT_CONFIG "batch_size";
  d_flush_interval ← Py.getitem DEFAULT_CONFIG "flush_interval";
  d_max_queue_size ← Py.getitem DEFAULT_CONFIG "max_queue_size";
  d_max_retries ← Py.getitem DEFAULT_CONFIG "max_retries";
  d_capture ← Py.getitem DEFAULT_CONFIG "capture_source_location";
  let merged : gmap string PyVal :=
    <["capture_source_location" :=
        Py.get config "capture_source_location" d_capture]>
    (<["max_retries" := Py.get config "max_retries" d_max_retries]>
    (<["max_queue_size" := Py.get config "max_queue_size" d_max_queue_size]>
    (<["flush_interval" := Py.get config "flush_interval" d_flush_interval]>
    (<["batch_size" := Py.get config "batch_size" d_batch_size]>
    (<["endpoint" := endpoint]>
    (<["api_key" := api_key]> ∅)))))) in
  (* Add optional fields if present *)
  merged ←
    (if Py.contains config "service"
     then v ← Py.getitem config "service"; Ok (<["service" := v]> merged)
     else Ok merged);
  merged ←
    (if Py.contains config "on_error"
     then v ← Py.getitem config "on_error"; Ok (<["on_error" := v]> merged)
     else Ok merged);
  merged ←
    (if Py.contains config "on_flush"
     then v ← Py.getitem config "on_flush"; Ok (<["on_flush" := v]> merged)
     else Ok merged);
  Ok merged.

End Config.

(** *** Text helpers *)

Module Str.

Definition code (c : ascii) : N := N_of_ascii c.

Definition between (lo hi : N) (c : ascii) : bool :=
  ((lo <=? code c) && (code c <=? hi))%N.

Fixpoint filter (keep : ascii → bool) (s : string) : string :=
  match s with
  | String c rest => if keep c then String c (filter keep rest) else filter keep rest
  | EmptyString => EmptyString
  end.

Fixpoint map (f : ascii → ascii) (s : string) : string :=
  match s with
  | String c rest => String (f c) (map f rest)
  | EmptyString => EmptyString
  end.

Fixpoint all (p : ascii → bool) (s : string) : bool :=
  match s with
  | String c rest => p c && all p rest
  | EmptyString => true
  end.

Fixpoint any (p : ascii → bool) (s : string) : bool :=
  match s with
  | String c rest => p c || any p rest
  | EmptyString => false
  end.

(** The text before and after the first character satisfying [p]. *)
Fixpoint partition (p : ascii → bool) (s : string) : option (string * string) :=
  match s with
  | String c rest =>
      if p c then Some (EmptyString, rest)
      else
        match partition p rest with
        | Some (before, after) => Some (String c before, after)
        | None => None
        end
  | EmptyString => None
  end.

(** The text before the first character satisfying [p]. *)
Fixpoint until (p : ascii → bool) (s : string) : string :=
  match s with
  | String c rest => if p c then EmptyString else String c (until p rest)
  | EmptyString => EmptyString
  end.

End Str.

(** *** A reference [urlparse]

    An instance of [UrlLib] that follows [urllib.parse.urlsplit] on the
    two components read here: leading control characters and spaces are
    stripped, tabs and line breaks removed, the scheme is the text before
    the first colon when it starts with a letter and consists of scheme
    characters, and the authority is the text after [//] up to the next
    [/], [?] or [#].  An authority with an unmatched square bracket raises
    [ValueError].  Two checks of the library are left out, the validation
    of the address inside square brackets and the NFKC check of a
    non-ASCII authority, so this instance parses some texts that the
    library refuses; it is used on none of them.  A [bytes] argument is
    decoded as ASCII first, and any other true argument has no [decode]
    method.  The theorems hold for every [urlparse]; this one serves the
    concrete cases. *)

Module Urllib.

Definition c0_control_or_space (c : ascii) : bool := Str.between 0 32 c.

Definition unsafe_byte (c : ascii) : bool :=
  ((Str.code c =? 9) || (Str.code c =? 13) || (Str.code c =? 10))%N.

Definition is_alpha (c : ascii) : bool :=
  Str.between 65 90 c || Str.between 97 122 c.

Definition scheme_char (c : ascii) : bool :=
  is_alpha c || Str.between 48 57 c
  || Ascii.eqb c "+" || Ascii.eqb c "-" || Ascii.eqb c ".".

Definition lower (c : ascii) : ascii :=
  if Str.between 65 90 c then ascii_of_N (Str.code c + 32) else c.

Definition stops_netloc (c : ascii) : bool :=
  Ascii.eqb c "/" || Ascii.eqb c "?" || Ascii.eqb c "#".

Fixpoint lstrip (s : string) : string :=
  match s with
  | String c rest => if c0_control_or_space c then lstrip rest else s
  | EmptyString => EmptyString
  end.

Definition split_scheme (url : string) : string * string :=
  match Str.partition (Ascii.eqb ":") url with
  | Some (String c _ as before, after) =>
      if is_alpha c && Str.all scheme_char before
      then (Str.map lower before, after)
      else (EmptyString, url)
  | _ => (EmptyString, url)
  end.

Definition urlsplit (url : string) : PyResult ParseResult :=
  let url := Str.filter (λ c, negb (unsafe_byte c)) (lstrip url) in
  let '(sch, url) := split_scheme url in
  match url with
  | String "/" (String "/" rest) =>
      let loc := Str.until stops_netloc rest in
      if xorb (Str.any (Ascii.eqb "[") loc) (Str.any (Ascii.eqb "]") loc)
      then Raise ValueError
      else Ok {| scheme := sch; netloc := loc |}
  | _ => Ok {| scheme := sch; netloc := EmptyString |}
  end.

Definition urlparse (v : PyVal) : PyResult ParseResult :=
  match v with
  | PyStr s => urlsplit s
  | PyBytes s =>
      if Str.all (Str.between 0 127) s then urlsplit s else Raise ValueError
  | _ => if Py.truthy v then Raise AttributeError else urlsplit EmptyString
  end.

End Urllib.

Definition reference_urllib : UrlLib := Urllib.urlparse.

(** ** Kinds of values

    The readings of "integer", "number", "positive" and the like that the
    statements below use. *)

Definition is_bool (v : PyVal) : bool :=
  match v with PyBool _ => true | _ => false end.

Definition is_int (v : PyVal) : bool :=
  match v with PyInt _ => true | _ => false end.

Definition is_number (v : PyVal) : bool :=
  match v with PyBool _ | PyInt _ | PyFloat _ => true | _ => false end.

(** An integer, or a float other than NaN. *)
Definition is_real (v : PyVal) : bool :=
  match v with
  | PyInt _ => true
  | PyFloat x => PrimFloat.eqb x x
  | _ => false
  end.

Definition is_positive (v : PyVal) : bool :=
  match v with
  | PyBool b => b
  | PyInt n => 0 <? n
  | PyFloat x => PrimFloat.ltb 0%float x
  | _ => false
  end.

Definition is_non_positive (v : PyVal) : bool :=
  match v with
  | PyBool b => negb b
  | PyInt n => n <=? 0
  | PyFloat x => PrimFloat.leb x 0%float
  | _ => false
  end.

Definition is_negative (v : PyVal) : bool :=
  match v with
  | PyInt n => n <? 0
  | PyFloat x => PrimFloat.ltb x 0%float
  | _ => false
  end.

Definition is_non_negative (v : PyVal) : bool :=
  match v with
  | PyBool _ => true
  | PyInt n => 0 <=? n
  | PyFloat x => PrimFloat.leb 0%float x
  | _ => false
  end.

(** A float that is not equal to itself. *)
Definition is_nan (v : PyVal) : bool :=
  match v with
  | PyFloat x => negb (PrimFloat.eqb x x)
  | _ => false
  end.

(** The value of [key], when the configuration has one, satisfies [ok]. *)
Definition supplied (key : string) (ok : PyVal → bool)
    (config : gmap string PyVal) : Prop :=
  ∀ v, config !! key = Some v → ok v = true.

Definition numeric_keys : list string :=
  ["batch_size"; "flush_interval"; "max_queue_size"; "max_retries"].

(** The reasons of §4.1. *)
Definition invalid_config_reasons : list string := [
  "api_key is required";
  "endpoint is required";
  "Invalid API key format. Expected: lw_[32 characters]";
  "Invalid endpoint URL";
  "batch_size must be positive";
  "flush_interval must be positive";
  "max_queue_size must be positive";
  "max_retries must be non-negative"
].

(** ** The specification's reading

    Definitions that follow the words of the specification, to be compared
    with the code above. *)

(** §4.2: upper or lower case letters, digits, hyphen, underscore. *)
Definition spec_key_char (c : ascii) : bool :=
  Str.between 65 90 c || Str.between 97 122 c || Str.between 48 57 c
  || Ascii.eqb c "-" || Ascii.eqb c "_".

(** §4.2: [lw_] followed by 32 such characters, no more, no fewer. *)
Definition spec_api_key_shape (s : string) : bool :=
  match s with
  | String c1 (String c2 (String c3 body)) =>
      Ascii.eqb c1 "l" && Ascii.eqb c2 "w" && Ascii.eqb c3 "_"
      && Nat.eqb (String.length body) 32 && Str.all spec_key_char body
  | _ => false
  end.

(** A line feed, and the [lw_] prefix put before a key body. *)
Definition nl : string := String Re.newline EmptyString.

Definition lw (body : string) : string :=
  String "l" (String "w" (String "_" body)).

(** §4.1: a constraint is broken or not by a configuration, and has the
    message reported when it is. *)
Record constraint : Type := {
  broken : gmap string PyVal → bool;
  message : string
}.

(** "present and non-empty" *)
Definition absent_or_empty (key : string) (config : gmap string PyVal) : bool :=
  match config !! key with
  | Some v => negb (Py.truthy v)
  | None => true
  end.

(** "if supplied, must be ..." *)
Definition supplied_but_not (key : string) (ok : PyVal → bool)
    (config : gmap string PyVal) : bool :=
  match config !! key with
  | Some v => negb (ok v)
  | None => false
  end.

(** ** The tests of [validate_config], as a list

    One entry for each [if ...: raise LogwellError(...)] of the function:
    the condition as the code evaluates it, which may itself raise, and
    the message raised when it holds. *)
Record check : Type := {
  violated : gmap string PyVal → PyResult bool;
  reason : string
}.

Definition missing_or_empty (key : string) (config : gmap string PyVal)
    : PyResult bool :=
  match config !! key with
  | Some v => Ok (negb (Py.truthy v))
  | None => Ok true
  end.

Definition out_of_bound (key : string) (cmp : PyVal → PyResult bool)
    (config : gmap string PyVal) : PyResult bool :=
  match config !! key with
  | Some v => cmp v
  | None => Ok false
  end.

Definition passthrough (key : string) (config merged : gmap string PyVal)
    : gmap string PyVal :=
  match config !! key with
  | Some v => <[key := v]> merged
  | None => merged
  end.

(** §4.1, last paragraph: the two required fields verbatim, the supplied
    value or the documented default for the optional core fields, and
    [service], [on_error], [on_flush] only if supplied. *)
Definition spec_merged (config : gmap string PyVal) (api_key endpoint : PyVal)
    : gmap string PyVal :=
  passthrough "on_flush" config
  (passthrough "on_error" config
  (passthrough "service" config
  (<["capture_source_location" :=
      default (PyBool false) (config !! "capture_source_location")]>
  (<["max_retries" := default (PyInt 3) (config !! "max_retries")]>
  (<["max_queue_size" := default (PyInt 1000) (config !! "max_queue_size")]>
  (<["flush_interval" := default (PyFloat 5%float) (config !! "flush_interval")]>
  (<["batch_size" := default (PyInt 50) (config !! "batch_size")]>
  (<["endpoint" := endpoint]>
  (<["api_key" := api_key]> ∅))))))))).

(** The keys a normalized configuration may hold. *)
Definition core_keys : list string :=
  ["api_key"; "endpoint"; "batch_size"; "flush_interval"; "max_queue_size";
   "max_retries"; "capture_source_location"].

Definition passthrough_keys : list string := ["service"; "on_error"; "on_flush"].

(** The same record, read key by key. *)
Definition spec_field (config : gmap string PyVal) (api_key endpoint : PyVal)
    (key : string) : option PyVal :=
  if decide (key = "api_key") then Some api_key
  else if decide (key = "endpoint") then Some endpoint
  else if decide (key = "batch_size")
    then Some (default (PyInt 50) (config !! key))
  else if decide (key = "flush_interval")
    then Some (default (PyFloat 5%float) (config !! key))
  else if decide (key = "max_queue_size")
    then Some (default (PyInt 1000) (config !! key))
  else if decide (key = "max_retries")
    then Some (default (PyInt 3) (config !! key))
  else if decide (key = "capture_source_location")
    then Some (default (PyBool false) (config !! key))
  else if decide (key ∈ passthrough_keys) then config !! key
  else None.

(** The tests are run in order: the first one that holds, or raises,
    decides the outcome. *)
Fixpoint run_checks (cs : list check) (config : gmap string PyVal)
    : PyResult unit :=
  match cs with
  | [] => Ok ()
  | chk :: cs' =>
      match violated chk config with
      | Ok true => Raise (LogwellError (reason chk) INVALID_CONFIG)
      | Ok false => run_checks cs' config
      | Raise e => Raise e
      end
  end.

Section Spec.

Context {lib : UrlLib}.

(** The eight conditions of config.py, lines 72 to 121, in the order of
    the code, each with its message.  They are the code's own tests: the
    constraints as the specification words them are [spec_constraints]
    below. *)
Definition code_checks : list check := [
  {| violated := missing_or_empty "api_key";
     reason := "api_key is required" |};
  {| violated := missing_or_empty "endpoint";
     reason := "endpoint is required" |};
  {| violated := λ config,
       match config !! "api_key" with
       | Some v => Ok (negb (validate_api_key_format v))
       | None => Ok true
       end;
     reason := "Invalid API key format. Expected: lw_[32 characters]" |};
  {| violated := λ config,
       match config !! "endpoint" with
       | Some v => negb <$> _is_valid_url v
       | None => Ok true
       end;
     reason := "Invalid endpoint URL" |};
  {| violated := out_of_bound "batch_size" Py.le_zero;
     reason := "batch_size must be positive" |};
  {| violated := out_of_bound "flush_interval" Py.le_zero;
     reason := "flush_interval must be positive" |};
  {| violated := out_of_bound "max_queue_size" Py.le_zero;
     reason := "max_queue_size must be positive" |};
  {| violated := out_of_bound "max_retries" Py.lt_zero;
     reason := "max_retries must be non-negative" |}
].

(** §4.3: parsing succeeds and both a scheme and a host are present and
    non-empty; any parse failure counts as invalid. *)
Definition spec_valid_url (url : PyVal) : bool :=
  match urlparse url with
  | Ok result =>
      negb (String.eqb (scheme result) "") && negb (String.eqb (netloc result) "")
  | Raise _ => false
  end.

(** §4.1: the eight constraints, in order, in the words of the
    specification: the key shape of §4.2, the URL of §4.3, "> 0" and
    ">= 0". *)
Definition spec_constraints : list constraint := [
  {| broken := absent_or_empty "api_key";
     message := "api_key is required" |};
  {| broken := absent_or_empty "endpoint";
     message := "endpoint is required" |};
  {| broken := λ config,
       match config !! "api_key" with
       | Some (PyStr s) => negb (spec_api_key_shape s)
       | _ => true
       end;
     message := "Invalid API key format. Expected: lw_[32 characters]" |};
  {| broken := λ config,
       match config !! "endpoint" with
       | Some url => negb (spec_valid_url url)
       | None => true
       end;
     message := "Invalid endpoint URL" |};
  {| broken := supplied_but_not "batch_size" is_positive;
     message := "batch_size must be positive" |};
  {| broken := supplied_but_not "flush_interval" is_positive;
     message := "flush_interval must be positive" |};
  {| broken := supplied_but_not "max_queue_size" is_positive;
     message := "max_queue_size must be positive" |};
  {| broken := supplied_but_not "max_retries" is_non_negative;
     message := "max_retries must be non-negative" |}
].

(** [urlparse] raises [ValueError] (malformed authority, undecodable
    bytes) or [AttributeError] (an argument with no [decode]), both of
    which [_is_valid_url] catches. *)
Definition ParseErrorsOnly : Prop :=
  ∀ v e, urlparse v = Raise e → e = ValueError ∨ e = AttributeError.

End Spec.

(** The keys whose values [validate_config] reads in a check, and the keys
    it copies without looking at the value. *)
Definition checked_keys : list string := "api_key" :: "endpoint" :: numeric_keys.

Definition unvalidated_keys : list string :=
  "capture_source_location" :: passthrough_keys.

(** ** Sample configurations *)

(** Example 1 of the specification. *)
Definition example_key : string := "lw_aaaaaaaaaaaaaaaaaaaaaaaaaaaaaaaa".

Definition example_url : string := "https://ingest.example.com".

Definition example_config : gmap string PyVal :=
  <["endpoint" := PyStr example_url]>
  (<["api_key" := PyStr example_key]> ∅).

(** The example with one more field, and what it is merged into. *)
Definition with_option (key : string) (v : PyVal) : gmap string PyVal :=
  <[key := v]> example_config.

Definition example_merged (config : gmap string PyVal) : gmap string PyVal :=
  spec_merged config (PyStr example_key) (PyStr example_url).

(** A string where a number is expected, before an option out of bounds;
    and two options out of bounds at once. *)
Definition text_before_bad_option : gmap string PyVal :=
  <["flush_interval" := PyInt (-1)]> (with_option "batch_size" (PyStr "10")).

Definition two_bad_options : gmap string PyVal :=
  <["flush_interval" := PyInt (-1)]> (with_option "batch_size" (PyInt (-1))).

(** Every numeric option at its boundary; the flush interval is the
    smallest positive float. *)
Definition boundary_options : gmap string PyVal :=
  <["max_retries" := PyInt 0]>
  (<["max_queue_size" := PyInt 1]>
  (<["flush_interval" := PyFloat 0x1p-1074%float]>
  (with_option "batch_size" (PyInt 1)))).

(** Example 5 of the specification, with an unrecognized key besides. *)
Definition with_service : gmap string PyVal :=
  <["debug" := PyBool true]> (with_option "service" (PyStr "checkout")).

(** * Properties *)

(** ** Dictionaries *)

Lemma contains_Some (d : gmap string PyVal) k v :
  d !! k = Some v → Py.contains d k = true.
Proof. intros Hk. unfold Py.contains. rewrite Hk. by apply bool_decide_eq_true. Qed.

Lemma contains_None (d : gmap string PyVal) k :
  d !! k = None → Py.contains d k = false.
Proof.
  intros Hk. unfold Py.contains. rewrite Hk.
  apply bool_decide_eq_false. by intros [? ?].
Qed.

Lemma getitem_Some (d : gmap string PyVal) k v :
  d !! k = Some v → Py.getitem d k = Ok v.
Proof. intros Hk. unfold Py.getitem. by rewrite Hk. Qed.

Lemma get_lookup (d : gmap string PyVal) k dflt :
  Py.get d k dflt = default dflt (d !! k).
Proof. unfold Py.get. by destruct (d !! k). Qed.

Lemma default_config_lookup :
  DEFAULT_CONFIG !! "batch_size" = Some (PyInt 50)
  ∧ DEFAULT_CONFIG !! "flush_interval" = Some (PyFloat 5%float)
  ∧ DEFAULT_CONFIG !! "max_queue_size" = Some (PyInt 1000)
  ∧ DEFAULT_CONFIG !! "max_retries" = Some (PyInt 3)
  ∧ DEFAULT_CONFIG !! "capture_source_location" = Some (PyBool false).
Proof. by vm_compute. Qed.

Ltac step_result :=
  cbn [negb Py.or_else Py.and_then mbind mret PyResult_bind PyResult_ret
       fmap PyResult_fmap].

(** Case analysis on a key of a dictionary, through [in] and [d[k]]. *)
Ltac dict_case d k :=
  let v := fresh "v" in
  let Hk := fresh "Hk" in
  destruct (d !! k) as [v|] eqn:Hk;
  [ rewrite ?(contains_Some d k v Hk), ?(getitem_Some d k v Hk)
  | rewrite ?(contains_None d k Hk) ];
  step_result.

(** Case analysis on the outcome of a comparison or of a predicate. *)
Ltac outcome_case t :=
  destruct t as [[]|] eqn:?; step_result; try reflexivity.

Ltac bound_case :=
  match goal with
  | |- context [Py.le_zero ?v] => outcome_case (Py.le_zero v)
  | |- context [Py.lt_zero ?v] => outcome_case (Py.lt_zero v)
  end.

Ltac use_lookups :=
  rewrite ?get_lookup;
  repeat match goal with
    | Hk : ?d !! ?k = _ |- context [?d !! ?k] => rewrite Hk
    end.

Section Refinement.

Context {lib : UrlLib}.

(** The code is the specification's list of checks followed by the merge. *)
Lemma validate_config_spec (config : gmap string PyVal) :
  validate_config config =
    (_ ← run_checks code_checks config;
     api_key ← Py.getitem config "api_key";
     endpoint ← Py.getitem config "endpoint";
     Ok (spec_merged config api_key endpoint)).
Proof.
  unfold validate_config, raise_if, spec_merged, passthrough.
  destruct default_config_lookup as (D1 & D2 & D3 & D4 & D5).
  rewrite !(getitem_Some DEFAULT_CONFIG _ _ D1), !(getitem_Some DEFAULT_CONFIG _ _ D2),
    !(getitem_Some DEFAULT_CONFIG _ _ D3), !(getitem_Some DEFAULT_CONFIG _ _ D4),
    !(getitem_Some DEFAULT_CONFIG _ _ D5).
  cbn [run_checks code_checks violated reason].
  unfold missing_or_empty, out_of_bound.
  dict_case config "api_key"; [|done].
  destruct (Py.truthy v); step_result; [|done].
  dict_case config "endpoint"; [|done].
  destruct (Py.truthy v0); step_result; [|done].
  destruct (validate_api_key_format v); step_result; [|done].
  outcome_case (_is_valid_url v0).
  dict_case config "batch_size"; [bound_case|];
  (dict_case config "flush_interval"; [bound_case|]);
  (dict_case config "max_queue_size"; [bound_case|]);
  (dict_case config "max_retries"; [bound_case|]);
  dict_case config "service"; dict_case config "on_error";
  dict_case config "on_flush"; use_lookups; reflexivity.
Qed.

End Refinement.

(** ** The merged record, key by key *)

Lemma passthrough_lookup_eq key (config merged : gmap string PyVal) :
  passthrough key config merged !! key
  = match config !! key with Some v => Some v | None => merged !! key end.
Proof.
  unfold passthrough. destruct (config !! key); [|done]. apply lookup_insert_eq.
Qed.

Lemma passthrough_lookup_ne key (config merged : gmap string PyVal) i :
  key ≠ i → passthrough key config merged !! i = merged !! i.
Proof.
  intros Hi. unfold passthrough. destruct (config !! key); [|done].
  by apply lookup_insert_ne.
Qed.

Ltac merged_lookup :=
  unfold spec_merged;
  repeat first
    [ rewrite passthrough_lookup_eq
    | rewrite lookup_insert_eq
    | rewrite passthrough_lookup_ne by (first [discriminate | congruence])
    | rewrite lookup_insert_ne by (first [discriminate | congruence])
    | rewrite lookup_empty ].

Lemma spec_merged_lookup (config : gmap string PyVal) api_key endpoint key :
  spec_merged config api_key endpoint !! key
  = spec_field config api_key endpoint key.
Proof.
  unfold spec_field, passthrough_keys.
  destruct (decide (key = "api_key")) as [->|?]; [by merged_lookup|].
  destruct (decide (key = "endpoint")) as [->|?]; [by merged_lookup|].
  destruct (decide (key = "batch_size")) as [->|?]; [by merged_lookup|].
  destruct (decide (key = "flush_interval")) as [->|?]; [by merged_lookup|].
  destruct (decide (key = "max_queue_size")) as [->|?]; [by merged_lookup|].
  destruct (decide (key = "max_retries")) as [->|?]; [by merged_lookup|].
  destruct (decide (key = "capture_source_location")) as [->|?]; [by merged_lookup|].
  destruct (decide (key = "service")) as [->|?].
  { merged_lookup. rewrite decide_True by (rewrite !elem_of_cons; tauto).
    by destruct (config !! "service"). }
  destruct (decide (key = "on_error")) as [->|?].
  { merged_lookup. rewrite decide_True by (rewrite !elem_of_cons; tauto).
    by destruct (config !! "on_error"). }
  destruct (decide (key = "on_flush")) as [->|?].
  { merged_lookup. rewrite decide_True by (rewrite !elem_of_cons; tauto).
    by destruct (config !! "on_flush"). }
  merged_lookup. rewrite decide_False; [done|].
  rewrite !elem_of_cons, elem_of_nil. tauto.
Qed.

Lemma spec_merged_core (config : gmap string PyVal) k e :
  let m := spec_merged config k e in
  m !! "api_key" = Some k
  ∧ m !! "endpoint" = Some e
  ∧ m !! "batch_size" = Some (default (PyInt 50) (config !! "batch_size"))
  ∧ m !! "flush_interval"
    = Some (default (PyFloat 5%float) (config !! "flush_interval"))
  ∧ m !! "max_queue_size"
    = Some (default (PyInt 1000) (config !! "max_queue_size"))
  ∧ m !! "max_retries" = Some (default (PyInt 3) (config !! "max_retries"))
  ∧ m !! "capture_source_location"
    = Some (default (PyBool false) (config !! "capture_source_location")).
Proof. cbv zeta. repeat split; by merged_lookup. Qed.

Lemma spec_merged_passthrough (config : gmap string PyVal) k e key :
  key ∈ passthrough_keys → spec_merged config k e !! key = config !! key.
Proof.
  unfold passthrough_keys. rewrite !elem_of_cons, elem_of_nil.
  intros [-> | [-> | [-> | []]]]; merged_lookup;
    by match goal with |- context [config !! ?x] => destruct (config !! x) end.
Qed.

Lemma spec_merged_other (config : gmap string PyVal) k e key :
  key ∉ core_keys → key ∉ passthrough_keys →
  spec_merged config k e !! key = None.
Proof.
  unfold core_keys. rewrite !elem_of_cons, elem_of_nil. intros Hc Hp.
  rewrite spec_merged_lookup. unfold spec_field.
  repeat (case_decide; [tauto|]). done.
Qed.

(** ** Lists of checks *)

Lemma run_checks_first_violation cs (config : gmap string PyVal) i chk :
  cs !! i = Some chk →
  (∀ j chk', (j < i)%nat → cs !! j = Some chk' → violated chk' config = Ok false) →
  violated chk config = Ok true →
  run_checks cs config = Raise (LogwellError (reason chk) INVALID_CONFIG).
Proof.
  revert i. induction cs as [|c0 cs IH]; intros i Hi Hbefore Hv; [done|].
  destruct i as [|i]; simpl in *.
  - injection Hi as ->. by rewrite Hv.
  - rewrite (Hbefore 0%nat c0); [|lia|done].
    apply (IH i); [done| |done].
    intros j chk' Hj Hl. apply (Hbefore (S j)); [lia|done].
Qed.

Lemma run_checks_ok cs (config : gmap string PyVal) :
  run_checks cs config = Ok () ↔ Forall (λ chk, violated chk config = Ok false) cs.
Proof.
  induction cs as [|c0 cs IH]; simpl.
  - split; [constructor|done].
  - rewrite Forall_cons. destruct (violated c0 config) as [[]|e]; try tauto.
    all: split; [done|]; by intros [? _].
Qed.

Lemma run_checks_raise cs (config : gmap string PyVal) e :
  run_checks cs config = Raise e →
  ∃ chk, chk ∈ cs ∧
    (violated chk config = Raise e
     ∨ violated chk config = Ok true ∧ e = LogwellError (reason chk) INVALID_CONFIG).
Proof.
  induction cs as [|c0 cs IH]; simpl; [done|].
  destruct (violated c0 config) as [[]|e'] eqn:Hv.
  - intros [= <-]. exists c0. split; [apply list_elem_of_here|]. by right.
  - intros [chk [Hin Hc]]%IH. exists chk. split; [by apply list_elem_of_further|done].
  - intros [= <-]. exists c0. split; [apply list_elem_of_here|]. by left.
Qed.

Section Outcome.
Context {lib : UrlLib}.

(** What a successful validation means. *)
Lemma validate_config_ok_iff (config m : gmap string PyVal) :
  validate_config config = Ok m ↔
  ∃ k e,
    config !! "api_key" = Some k ∧ config !! "endpoint" = Some e
    ∧ Py.truthy k = true ∧ Py.truthy e = true
    ∧ validate_api_key_format k = true ∧ _is_valid_url e = Ok true
    ∧ out_of_bound "batch_size" Py.le_zero config = Ok false
    ∧ out_of_bound "flush_interval" Py.le_zero config = Ok false
    ∧ out_of_bound "max_queue_size" Py.le_zero config = Ok false
    ∧ out_of_bound "max_retries" Py.lt_zero config = Ok false
    ∧ m = spec_merged config k e.
Proof.
  rewrite validate_config_spec.
  destruct (run_checks code_checks config) as [[]|err] eqn:Hrun; cbn [mbind PyResult_bind].
  - apply run_checks_ok in Hrun.
    unfold code_checks in Hrun. rewrite !Forall_cons in Hrun.
    cbn [violated] in Hrun. unfold missing_or_empty in Hrun.
    destruct Hrun as (H1 & H2 & H3 & H4 & H5 & H6 & H7 & H8 & _).
    destruct (config !! "api_key") as [k|] eqn:Hk; [|done].
    destruct (config !! "endpoint") as [e|] eqn:He; [|done].
    rewrite (getitem_Some _ _ _ Hk), (getitem_Some _ _ _ He). cbn [mbind PyResult_bind].
    assert (Py.truthy k = true) by (by destruct (Py.truthy k)).
    assert (Py.truthy e = true) by (by destruct (Py.truthy e)).
    assert (validate_api_key_format k = true) by (by destruct (validate_api_key_format k)).
    assert (_is_valid_url e = Ok true) by (by destruct (_is_valid_url e) as [[]|]).
    split.
    + intros [= <-]. by exists k, e.
    + intros (k' & e' & [= <-] & [= <-] & _ & _ & _ & _ & _ & _ & _ & _ & ->). done.
  - split; [done|].
    intros (k & e & Hk & He & Tk & Te & Fk & Ue & B1 & B2 & B3 & B4 & _).
    assert (run_checks code_checks config = Ok ()) as Hok; [|congruence].
    apply run_checks_ok. unfold code_checks. rewrite !Forall_cons.
    cbn [violated]. unfold missing_or_empty. rewrite Hk, He, Tk, Te, Fk, Ue.
    by repeat split.
Qed.

End Outcome.

(** ** The API key pattern *)

Lemma key_chars_spec c : Re.in_set key_chars c = spec_key_char c.
Proof. by destruct c as [[] [] [] [] [] [] [] []]. Qed.

Lemma all_ext p q s : (∀ c, p c = q c) → Str.all p s = Str.all q s.
Proof. intros E. induction s as [|c s IH]; simpl; [done|]. by rewrite E, IH. Qed.

(** A counted repetition of a character set consumes exactly that many
    characters of the set. *)
Lemma iterate_set items n b s rest :
  (∃ b', Re.iterate n (Re.step (Re.Set_ items)) (b, s) = Some (b', rest)) ↔
  ∃ body, s = body ++ rest ∧ String.length body = n
          ∧ Str.all (Re.in_set items) body = true.
Proof.
  revert b s. induction n as [|n IH]; intros b s; simpl.
  - split.
    + intros [b' [= <- <-]]. by exists "".
    + intros (body & -> & Hlen & _). destruct body; [|done]. by exists b.
  - destruct s as [|d s]; simpl.
    + split; [by intros [? ?]|]. intros (body & Hs & Hlen & _). by destruct body.
    + destruct (Re.in_set items d) eqn:Hd.
      * rewrite IH. split.
        -- intros (body & -> & Hlen & Hall). exists (String d body).
           simpl. by rewrite Hd, Hall, Hlen.
        -- intros (body & Hs & Hlen & Hall).
           destruct body as [|d' body]; [done|]. simpl in *.
           injection Hs as <- ->. injection Hlen as Hlen.
           apply andb_true_iff in Hall as [_ Hall].
           by exists body.
      * split; [by intros [? ?]|]. intros (body & Hs & Hlen & Hall).
        destruct body as [|d' body]; [done|]. simpl in *.
        injection Hs as <- ->. by rewrite Hd in Hall.
Qed.

Lemma append_cons c (s t : string) : String c s ++ t = String c (s ++ t).
Proof. reflexivity. Qed.

Lemma append_empty_r (s : string) : s ++ "" = s.
Proof. induction s as [|c s IH]; [done|]. by rewrite append_cons, IH. Qed.

Lemma append_inj_length (a b c d : string) :
  a ++ c = b ++ d → String.length a = String.length b → a = b ∧ c = d.
Proof.
  revert b. induction a as [|x a IH]; intros [|y b]; try done.
  rewrite !append_cons. intros [= -> Hs] [= Hl].
  destruct (IH b Hs Hl) as [-> ->]. done.
Qed.

Lemma shape_iff s :
  spec_api_key_shape s = true ↔
  ∃ body, s = lw body ∧ String.length body = 32%nat
          ∧ Str.all spec_key_char body = true.
Proof.
  unfold spec_api_key_shape, lw. split.
  - destruct s as [|c1 [|c2 [|c3 body]]]; try done.
    rewrite !andb_true_iff.
    intros [[[[->%Ascii.eqb_eq ->%Ascii.eqb_eq] ->%Ascii.eqb_eq] Hl%Nat.eqb_eq] Ha].
    by exists body.
  - intros (body & -> & Hl & Ha).
    by rewrite !Ascii.eqb_refl, Hl, Ha.
Qed.

Lemma run_lit c p b s :
  Re.run (Re.Lit c :: p) (b, s)
  = match s with
    | String d rest => if Ascii.eqb d c then Re.run p (false, rest) else None
    | EmptyString => None
    end.
Proof. simpl. destruct s as [|d rest]; [done|]. by destruct (Ascii.eqb d c). Qed.

Lemma run_api_key_regex s :
  Re.match_ API_KEY_REGEX s = true ↔
  ∃ body rest, s = lw (body ++ rest) ∧ String.length body = 32%nat
     ∧ Str.all spec_key_char body = true ∧ (rest = "" ∨ rest = nl).
Proof.
  unfold Re.match_, API_KEY_REGEX, lw.
  change (Re.run (Re.Bol :: ?p) (true, s)) with (Re.run p (true, s)).
  rewrite run_lit.
  destruct s as [|c1 s].
  { split; [done|]. by intros (? & ? & ? & _). }
  destruct (Ascii.eqb_spec c1 "l") as [->|N1].
  2: { split; [done|]. intros (? & ? & [= ? _] & _). done. }
  rewrite run_lit.
  destruct s as [|c2 s].
  { split; [done|]. by intros (? & ? & ? & _). }
  destruct (Ascii.eqb_spec c2 "w") as [->|N2].
  2: { split; [done|]. intros (? & ? & [= ? _] & _). done. }
  rewrite run_lit.
  destruct s as [|c3 s].
  { split; [done|]. by intros (? & ? & ? & _). }
  destruct (Ascii.eqb_spec c3 "_") as [->|N3].
  2: { split; [done|]. intros (? & ? & [= ? _] & _). done. }
  cbn [Re.run Re.step].
  destruct (Re.iterate 32 _ _) as [[b' rest]|] eqn:Hit.
  - assert (∃ b', Re.iterate 32 (Re.step (Re.Set_ key_chars)) (false, s) = Some (b', rest))
      as (body & -> & Hl & Ha)%iterate_set by eauto.
    rewrite (all_ext _ _ _ key_chars_spec) in Ha.
    cbn [snd]. split.
    + intros Hm. exists body, rest. repeat split; try done.
      destruct rest as [|c [|? ?]]; [by left| |done].
      destruct (Ascii.eqb_spec c Re.newline) as [->|?]; [by right|done].
    + intros (body0 & rest0 & [= Hs] & Hl0 & _ & Hr).
      apply append_inj_length in Hs as [_ Hs]; [|by rewrite Hl, Hl0]. subst rest0.
      by destruct Hr as [-> | ->].
  - split; [done|].
    intros (body0 & rest0 & [= ->] & Hl0 & Ha0 & _).
    assert (∃ b', Re.iterate 32 (Re.step (Re.Set_ key_chars)) (false, body0 ++ rest0)
                  = Some (b', rest0)) as [b' Hb'].
    { apply iterate_set. exists body0. rewrite (all_ext _ _ _ key_chars_spec). done. }
    cbn [Re.step] in Hb'. congruence.
Qed.

(** What [validate_api_key_format] accepts: a string of the documented
    shape, or such a string followed by one line feed. *)
Lemma validate_api_key_format_iff v :
  validate_api_key_format v = true ↔
  ∃ s, (v = PyStr s ∨ v = PyStr (s ++ nl)) ∧ spec_api_key_shape s = true.
Proof.
  unfold validate_api_key_format. split.
  - destruct v as [| | | |s| |]; simpl; try done.
    + by destruct b.
    + by destruct (negb _).
    + by destruct (negb _).
    + destruct (negb _); [done|]. simpl.
      intros (body & rest & -> & Hl & Ha & [-> | ->])%run_api_key_regex.
      * exists (lw body). rewrite append_empty_r. split; [by left|].
        apply shape_iff. by exists body.
      * exists (lw body). split; [by right|].
        apply shape_iff. by exists body.
    + by destruct (negb _).
  - intros (s & Hv & (body & -> & Hl & Ha)%shape_iff).
    assert (∃ rest, v = PyStr (lw (body ++ rest)) ∧ (rest = "" ∨ rest = nl))
      as (rest & -> & Hr).
    { destruct Hv as [-> | ->].
      - exists "". rewrite append_empty_r. auto.
      - exists nl. auto. }
    simpl. apply run_api_key_regex. by exists body, rest.
Qed.

(** Apart from the trailing line feed, the code accepts the shape of the
    specification and nothing else. *)
Lemma format_is_shape s :
  (∀ s', s = s' ++ nl → spec_api_key_shape s' = false) →
  validate_api_key_format (PyStr s) = spec_api_key_shape s.
Proof.
  intros Hnl. apply eq_true_iff_eq. rewrite validate_api_key_format_iff. split.
  - intros (s0 & [[= ->] | [= ->]] & Hs0); [done|].
    by rewrite (Hnl s0) in Hs0.
  - intros Hs. exists s. auto.
Qed.

Lemma format_not_str v :
  Py.is_str v = false → validate_api_key_format v = false.
Proof.
  intros Hv. unfold validate_api_key_format. rewrite Hv.
  by rewrite orb_true_r.
Qed.

(** ** Comparisons with zero *)

Lemma float_not_le_zero (x : float) :
  PrimFloat.leb x 0%float = false → PrimFloat.eqb x x = true →
  PrimFloat.ltb 0%float x = true.
Proof.
  rewrite FloatAxioms.leb_spec, FloatAxioms.eqb_spec, FloatAxioms.ltb_spec.
  change (Prim2SF 0%float) with (S754_zero false).
  destruct (Prim2SF x) as [s|s| |s m e]; try destruct s; cbn; try done.
Qed.

Lemma float_pos_not_le_zero (x : float) :
  PrimFloat.ltb 0%float x = true → PrimFloat.leb x 0%float = false.
Proof.
  rewrite FloatAxioms.leb_spec, FloatAxioms.ltb_spec.
  change (Prim2SF 0%float) with (S754_zero false).
  destruct (Prim2SF x) as [s|s| |s m e]; try destruct s; cbn; try done.
Qed.

(** * The claims *)

Lemma float_nonneg_not_lt_zero (x : float) :
  PrimFloat.leb 0%float x = true → PrimFloat.ltb x 0%float = false.
Proof.
  rewrite FloatAxioms.leb_spec, FloatAxioms.ltb_spec.
  change (Prim2SF 0%float) with (S754_zero false).
  destruct (Prim2SF x) as [s|s| |s m e]; try destruct s; cbn; try done.
Qed.

Lemma positive_le_zero v : is_positive v = true → Py.le_zero v = Ok false.
Proof.
  destruct v as [|b|n|x| | |]; simpl; try done.
  - by intros ->.
  - intros Hn%Z.ltb_lt. f_equal. apply Z.leb_gt. lia.
  - intros Hx. f_equal. by apply float_pos_not_le_zero.
Qed.

Lemma non_positive_le_zero v : is_non_positive v = true ↔ Py.le_zero v = Ok true.
Proof.
  destruct v as [|b|n|x| | |]; simpl; try done;
    (split; [by intros -> | by intros [= ->]]).
Qed.

Lemma negative_lt_zero v : is_negative v = true ↔ Py.lt_zero v = Ok true.
Proof.
  destruct v as [|b|n|x| | |]; simpl; try done;
    (split; [by intros -> | by intros [= ->]]).
Qed.

Lemma non_negative_lt_zero v : is_non_negative v = true → Py.lt_zero v = Ok false.
Proof.
  destruct v as [|b|n|x| | |]; simpl; try done.
  - intros Hn%Z.leb_le. f_equal. apply Z.ltb_ge. lia.
  - intros Hx. f_equal. by apply float_nonneg_not_lt_zero.
Qed.

Lemma float_le_zero_not_pos (x : float) :
  PrimFloat.eqb x x = true →
  PrimFloat.leb x 0%float = negb (PrimFloat.ltb 0%float x).
Proof.
  rewrite FloatAxioms.leb_spec, FloatAxioms.eqb_spec, FloatAxioms.ltb_spec.
  change (Prim2SF 0%float) with (S754_zero false).
  destruct (Prim2SF x) as [s|s| |s m e]; try destruct s; cbn; try done.
Qed.

Lemma float_lt_zero_not_nonneg (x : float) :
  PrimFloat.eqb x x = true →
  PrimFloat.ltb x 0%float = negb (PrimFloat.leb 0%float x).
Proof.
  rewrite FloatAxioms.leb_spec, FloatAxioms.eqb_spec, FloatAxioms.ltb_spec.
  change (Prim2SF 0%float) with (S754_zero false).
  destruct (Prim2SF x) as [s|s| |s m e]; try destruct s; cbn; try done.
Qed.

Lemma le_zero_number v :
  is_number v = true → is_nan v = false →
  Py.le_zero v = Ok (negb (is_positive v)).
Proof.
  destruct v as [|b|n|x| | |]; simpl; try done; intros _ Hnan; f_equal.
  - rewrite Z.leb_antisym. done.
  - apply negb_false_iff in Hnan. by apply float_le_zero_not_pos.
Qed.

Lemma lt_zero_number v :
  is_number v = true → is_nan v = false →
  Py.lt_zero v = Ok (negb (is_non_negative v)).
Proof.
  destruct v as [|b|n|x| | |]; simpl; try done; intros _ Hnan; f_equal.
  - rewrite Z.ltb_antisym. done.
  - apply negb_false_iff in Hnan. by apply float_lt_zero_not_nonneg.
Qed.

Lemma supplied_bound key ok cmp (config : gmap string PyVal) :
  (∀ v, ok v = true → cmp v = Ok false) →
  supplied key ok config → out_of_bound key cmp config = Ok false.
Proof.
  intros Hok Hs. unfold out_of_bound.
  destruct (config !! key) as [v|] eqn:Hv; [|done]. apply Hok. by apply Hs.
Qed.

Section Claims.
Context {lib : UrlLib}.

Lemma valid_key_truthy k : validate_api_key_format k = true → Py.truthy k = true.
Proof.
  unfold validate_api_key_format. destruct (Py.truthy k); [done|]. by simpl.
Qed.

(** C1.  A configuration whose [api_key] has the required shape, whose
    [endpoint] is a non-empty string that [_is_valid_url] accepts, and
    which omits the five optional core fields is accepted, and the result
    holds batch_size 50, flush_interval 5.0, max_queue_size 1000,
    max_retries 3 and capture_source_location False. *)
Theorem defaults_applied (config : gmap string PyVal) s u :
  config !! "api_key" = Some (PyStr s) → spec_api_key_shape s = true →
  config !! "endpoint" = Some (PyStr u) → u ≠ "" →
  _is_valid_url (PyStr u) = Ok true →
  config !! "batch_size" = None → config !! "flush_interval" = None →
  config !! "max_queue_size" = None → config !! "max_retries" = None →
  config !! "capture_source_location" = None →
  ∃ m, validate_config config = Ok m
    ∧ m !! "batch_size" = Some (PyInt 50)
    ∧ m !! "flush_interval" = Some (PyFloat 5%float)
    ∧ m !! "max_queue_size" = Some (PyInt 1000)
    ∧ m !! "max_retries" = Some (PyInt 3)
    ∧ m !! "capture_source_location" = Some (PyBool false).
Proof.
  intros Hk Hs He Hu Hurl B1 B2 B3 B4 B5.
  assert (validate_api_key_format (PyStr s) = true) as Hf.
  { apply validate_api_key_format_iff. exists s. auto. }
  exists (spec_merged config (PyStr s) (PyStr u)). split.
  - apply validate_config_ok_iff. exists (PyStr s), (PyStr u).
    unfold out_of_bound. rewrite B1, B2, B3, B4.
    repeat split; try done.
    + by apply valid_key_truthy.
    + simpl. by destruct u.
  - rewrite !spec_merged_lookup. unfold spec_field. simpl.
    by rewrite B1, B2, B3, B4, B5.
Qed.

Lemma first_violation (config : gmap string PyVal) i chk :
  code_checks !! i = Some chk →
  (∀ j chk', (j < i)%nat → code_checks !! j = Some chk' →
             violated chk' config = Ok false) →
  violated chk config = Ok true →
  validate_config config = Raise (LogwellError (reason chk) INVALID_CONFIG).
Proof.
  intros Hi Hbefore Hv. rewrite validate_config_spec.
  by rewrite (run_checks_first_violation _ _ i chk Hi Hbefore Hv).
Qed.

Lemma is_valid_url_spec url :
  ParseErrorsOnly → _is_valid_url url = Ok (spec_valid_url url).
Proof.
  intros Hlib. unfold _is_valid_url, spec_valid_url.
  destruct (urlparse url) as [r|err] eqn:Hp; [done|].
  by destruct (Hlib url err Hp) as [-> | ->].
Qed.

(** On the configurations described, each test of the code gives the
    verdict of the constraint at the same place, with the same message. *)
Lemma code_checks_agree (config : gmap string PyVal) :
  ParseErrorsOnly →
  (∀ key v, key ∈ numeric_keys → config !! key = Some v →
            is_number v = true ∧ is_nan v = false) →
  (∀ s, config !! "api_key" = Some (PyStr (s ++ nl)) →
        spec_api_key_shape s = false) →
  Forall2 (λ chk c, violated chk config = Ok (broken c config)
                    ∧ reason chk = message c)
    code_checks spec_constraints.
Proof.
  intros Hlib Hnum Hnl.
  assert (∀ key, key ∈ numeric_keys →
            out_of_bound key Py.le_zero config
            = Ok (supplied_but_not key is_positive config)) as Hle.
  { intros key Hkey. unfold out_of_bound, supplied_but_not.
    destruct (config !! key) as [v|] eqn:Hv; [|done].
    destruct (Hnum key v Hkey Hv). by apply le_zero_number. }
  assert (∀ key, key ∈ numeric_keys →
            out_of_bound key Py.lt_zero config
            = Ok (supplied_but_not key is_non_negative config)) as Hlt.
  { intros key Hkey. unfold out_of_bound, supplied_but_not.
    destruct (config !! key) as [v|] eqn:Hv; [|done].
    destruct (Hnum key v Hkey Hv). by apply lt_zero_number. }
  unfold numeric_keys in Hle, Hlt.
  unfold code_checks, spec_constraints.
  repeat (apply List.Forall2_cons; [split; [cbn [violated broken]|reflexivity]|]);
    [..|apply List.Forall2_nil];
    try (apply Hle; rewrite !elem_of_cons; tauto);
    try (apply Hlt; rewrite !elem_of_cons; tauto).
  - unfold missing_or_empty, absent_or_empty. by destruct (config !! "api_key").
  - unfold missing_or_empty, absent_or_empty. by destruct (config !! "endpoint").
  - destruct (config !! "api_key") as [k|] eqn:Hk; [|done].
    destruct k as [| | | |s| |]; try (by rewrite format_not_str).
    rewrite format_is_shape; [done|]. intros s' ->. by apply Hnl.
  - destruct (config !! "endpoint") as [url|]; [|done].
    by rewrite (is_valid_url_spec url Hlib).
Qed.

(** C2, amended.  Take a configuration whose supplied numeric options are
    numbers other than NaN and whose api_key is not a key of the required
    shape followed by a line feed, [urlparse] raising nothing but
    [ValueError] and [AttributeError].  The constraints are checked in the
    order of [spec_constraints] (api_key present and non-empty, endpoint
    present and non-empty, api_key shape, endpoint URL, then the bounds of
    batch_size, flush_interval, max_queue_size and max_retries): when no
    constraint before the i-th is broken and the i-th is, the failure is
    the [LogwellError] with the i-th message and code [INVALID_CONFIG].
    For every configuration: with both required fields missing the
    message is "api_key is required", and with a non-empty api_key of any
    format and an absent or empty endpoint it is "endpoint is
    required". *)
Theorem first_violation_reported (config : gmap string PyVal) :
  (ParseErrorsOnly →
   (∀ key v, key ∈ numeric_keys → config !! key = Some v →
             is_number v = true ∧ is_nan v = false) →
   (∀ s, config !! "api_key" = Some (PyStr (s ++ nl)) →
         spec_api_key_shape s = false) →
   ∀ i c,
     spec_constraints !! i = Some c →
     (∀ j c', (j < i)%nat → spec_constraints !! j = Some c' →
              broken c' config = false) →
     broken c config = true →
     validate_config config = Raise (LogwellError (message c) INVALID_CONFIG))
  ∧ (config !! "api_key" = None → config !! "endpoint" = None →
     validate_config config
     = Raise (LogwellError "api_key is required" INVALID_CONFIG))
  ∧ (∀ k, config !! "api_key" = Some k → Py.truthy k = true →
     config !! "endpoint" = None ∨ config !! "endpoint" = Some (PyStr "") →
     validate_config config
     = Raise (LogwellError "endpoint is required" INVALID_CONFIG)).
Proof.
  pose proof (first_violation config) as Hfirst.
  split; [|split].
  - intros Hlib Hnum Hnl i c Hi Hbefore Hc.
    pose proof (code_checks_agree config Hlib Hnum Hnl) as Hagree.
    destruct (Forall2_lookup_r _ _ _ _ _ Hagree Hi) as (chk & Hchk & Hv & <-).
    apply (Hfirst i chk Hchk); [|by rewrite Hv, Hc].
    intros j chk' Hj Hchk'.
    destruct (Forall2_lookup_l _ _ _ _ _ Hagree Hchk') as (c' & Hc' & -> & _).
    by rewrite (Hbefore j c' Hj Hc').
  - intros Hk _.
    apply (Hfirst 0%nat {| violated := missing_or_empty "api_key";
                           reason := "api_key is required" |}); [done|intros; lia|].
    cbn. unfold missing_or_empty. by rewrite Hk.
  - intros k Hk Tk He.
    apply (Hfirst 1%nat {| violated := missing_or_empty "endpoint";
                           reason := "endpoint is required" |}); [done| |].
    + intros [|j] chk' Hj; [|lia]. intros [= <-]. cbn.
      unfold missing_or_empty. by rewrite Hk, Tk.
    + cbn. unfold missing_or_empty. by destruct He as [-> | ->].
Qed.

Lemma spec_field_merged (config : gmap string PyVal) k e key :
  spec_field (spec_merged config k e) k e key = spec_field config k e key.
Proof.
  unfold spec_field at 1. rewrite spec_merged_lookup. unfold spec_field.
  repeat (case_decide; [by cbn [default from_option]|]). done.
Qed.

(** C8.  Validation is idempotent: a configuration returned by
    [validate_config] is accepted in turn and returned unchanged. *)
Theorem validation_idempotent (config m : gmap string PyVal) :
  validate_config config = Ok m → validate_config m = Ok m.
Proof.
  intros (k & e & Hk & He & Tk & Te & Fk & Ue & B1 & B2 & B3 & B4 & ->)%validate_config_ok_iff.
  apply validate_config_ok_iff. exists k, e.
  destruct (spec_merged_core config k e) as (M1 & M2 & M3 & M4 & M5 & M6 & _).
  unfold out_of_bound in *. rewrite M1, M2, M3, M4, M5, M6.
  repeat split; try done.
  - by destruct (config !! "batch_size").
  - destruct (config !! "flush_interval"); [done|by vm_compute].
  - by destruct (config !! "max_queue_size").
  - by destruct (config !! "max_retries").
  - apply map_eq. intros key. by rewrite !spec_merged_lookup, spec_field_merged.
Qed.

Lemma is_valid_url_total :
  ParseErrorsOnly → ∀ v, ∃ b, _is_valid_url v = Ok b.
Proof.
  intros Hlib v. unfold _is_valid_url.
  destruct (urlparse v) as [r|err] eqn:Hp; [eauto|].
  destruct (Hlib v err Hp) as [-> | ->]; eauto.
Qed.

Lemma required_pass (config : gmap string PyVal) k e :
  config !! "api_key" = Some k → validate_api_key_format k = true →
  config !! "endpoint" = Some e → Py.truthy e = true →
  _is_valid_url e = Ok true →
  validate_config config =
    (_ ← run_checks (drop 4 code_checks) config;
     Ok (spec_merged config k e)).
Proof.
  intros Hk Fk He Te Ue. rewrite validate_config_spec.
  rewrite (getitem_Some _ _ _ Hk), (getitem_Some _ _ _ He).
  unfold code_checks. cbn [run_checks drop violated reason].
  unfold missing_or_empty. rewrite Hk, He, (valid_key_truthy _ Fk), Te, Fk, Ue.
  done.
Qed.

(** C7, amended.  With valid required fields: a batch_size, flush_interval
    or max_queue_size that is a number [<= 0] is rejected with its own
    "must be positive" reason, and a max_retries that is a number [< 0]
    with "max_retries must be non-negative", provided each numeric option
    checked before it is absent or within its bound; and a configuration
    whose numeric options are all absent or within bounds (batch_size 1,
    any positive flush_interval however small, max_queue_size 1,
    max_retries 0 among them) is accepted. *)
Theorem bounds_enforced (config : gmap string PyVal) k e :
  config !! "api_key" = Some k → validate_api_key_format k = true →
  config !! "endpoint" = Some e → Py.truthy e = true →
  _is_valid_url e = Ok true →
  (∀ v, config !! "batch_size" = Some v → is_non_positive v = true →
     validate_config config
     = Raise (LogwellError "batch_size must be positive" INVALID_CONFIG))
  ∧ (supplied "batch_size" is_positive config →
     ∀ v, config !! "flush_interval" = Some v → is_non_positive v = true →
     validate_config config
     = Raise (LogwellError "flush_interval must be positive" INVALID_CONFIG))
  ∧ (supplied "batch_size" is_positive config →
     supplied "flush_interval" is_positive config →
     ∀ v, config !! "max_queue_size" = Some v → is_non_positive v = true →
     validate_config config
     = Raise (LogwellError "max_queue_size must be positive" INVALID_CONFIG))
  ∧ (supplied "batch_size" is_positive config →
     supplied "flush_interval" is_positive config →
     supplied "max_queue_size" is_positive config →
     ∀ v, config !! "max_retries" = Some v → is_negative v = true →
     validate_config config
     = Raise (LogwellError "max_retries must be non-negative" INVALID_CONFIG))
  ∧ (supplied "batch_size" is_positive config →
     supplied "flush_interval" is_positive config →
     supplied "max_queue_size" is_positive config →
     supplied "max_retries" is_non_negative config →
     validate_config config = Ok (spec_merged config k e)).
Proof.
  intros Hk Fk He Te Ue. rewrite (required_pass config k e) by done.
  unfold code_checks. cbn [run_checks drop violated reason].
  repeat split.
  - intros v Hv Hle%non_positive_le_zero. unfold out_of_bound at 1.
    by rewrite Hv, Hle.
  - intros S1%(supplied_bound _ _ Py.le_zero _ positive_le_zero).
    intros v Hv Hle%non_positive_le_zero. rewrite S1.
    unfold out_of_bound at 1. by rewrite Hv, Hle.
  - intros S1%(supplied_bound _ _ Py.le_zero _ positive_le_zero).
    intros S2%(supplied_bound _ _ Py.le_zero _ positive_le_zero).
    intros v Hv Hle%non_positive_le_zero. rewrite S1, S2.
    unfold out_of_bound at 1. by rewrite Hv, Hle.
  - intros S1%(supplied_bound _ _ Py.le_zero _ positive_le_zero).
    intros S2%(supplied_bound _ _ Py.le_zero _ positive_le_zero).
    intros S3%(supplied_bound _ _ Py.le_zero _ positive_le_zero).
    intros v Hv Hlt%negative_lt_zero. rewrite S1, S2, S3.
    unfold out_of_bound at 1. by rewrite Hv, Hlt.
  - intros S1%(supplied_bound _ _ Py.le_zero _ positive_le_zero).
    intros S2%(supplied_bound _ _ Py.le_zero _ positive_le_zero).
    intros S3%(supplied_bound _ _ Py.le_zero _ positive_le_zero).
    intros S4%(supplied_bound _ _ Py.lt_zero _ non_negative_lt_zero).
    by rewrite S1, S2, S3, S4.
Qed.

(** C3, amended.  When [urlparse] raises nothing but [ValueError] and
    [AttributeError], and every supplied batch_size, flush_interval,
    max_queue_size and max_retries is a number, [validate_config] either
    succeeds or raises a [LogwellError] with code [INVALID_CONFIG] and
    one of the eight listed reasons. *)
Theorem only_invalid_config (config : gmap string PyVal) :
  ParseErrorsOnly →
  (∀ key v, key ∈ numeric_keys → config !! key = Some v → is_number v = true) →
  (∃ m, validate_config config = Ok m)
  ∨ (∃ msg, msg ∈ invalid_config_reasons
       ∧ validate_config config = Raise (LogwellError msg INVALID_CONFIG)).
Proof.
  intros Hlib Hnum. rewrite validate_config_spec.
  assert (∀ key cmp, key ∈ numeric_keys → cmp = Py.le_zero ∨ cmp = Py.lt_zero →
            ∀ err, out_of_bound key cmp config ≠ Raise err) as Hcmp.
  { intros key cmp Hkey Hc err. unfold out_of_bound.
    destruct (config !! key) as [v|] eqn:Hv; [|done].
    specialize (Hnum key v Hkey Hv).
    destruct Hc as [-> | ->]; by destruct v. }
  destruct (run_checks code_checks config) as [[]|err] eqn:Hrun.
  - left. apply run_checks_ok in Hrun. unfold code_checks in Hrun.
    rewrite !Forall_cons in Hrun. destruct Hrun as (H1 & H2 & _).
    cbn [violated] in H1, H2. unfold missing_or_empty in H1, H2.
    destruct (config !! "api_key") as [k|] eqn:Hk; [|done].
    destruct (config !! "endpoint") as [e|] eqn:He; [|done].
    rewrite (getitem_Some _ _ _ Hk), (getitem_Some _ _ _ He). by eexists.
  - right. apply run_checks_raise in Hrun as (chk & Hin & Hchk).
    unfold code_checks in Hin. rewrite !elem_of_cons, elem_of_nil in Hin.
    assert (∀ e', violated chk config ≠ Raise e') as Hnot.
    { intros e'. unfold numeric_keys in Hcmp.
      destruct Hin as [-> | [-> | [-> | [-> | [-> | [-> | [-> | [-> | []]]]]]]]];
        cbn [violated]; unfold missing_or_empty;
        try (apply Hcmp; [rewrite !elem_of_cons; tauto | tauto]).
      - by destruct (config !! "api_key").
      - by destruct (config !! "endpoint").
      - by destruct (config !! "api_key").
      - destruct (config !! "endpoint") as [e|]; [|done].
        destruct (is_valid_url_total Hlib e) as [b ->]. done. }
    destruct Hchk as [Hr | [_ ->]]; [by apply Hnot in Hr|].
    exists (reason chk). split; [|done].
    unfold invalid_config_reasons. rewrite !elem_of_cons.
    destruct Hin as [-> | [-> | [-> | [-> | [-> | [-> | [-> | [-> | []]]]]]]]];
      cbn [reason]; tauto.
Qed.

(** C6, amended.  With a valid api_key, every non-empty endpoint string that
    [urlparse] cannot parse, or parses with an empty scheme or an empty
    host, is rejected with "Invalid endpoint URL"; and when [urlparse]
    raises nothing but [ValueError] and [AttributeError], [_is_valid_url]
    returns a boolean for every value. *)
Theorem invalid_url_rejected :
  (∀ (config : gmap string PyVal) k u,
     config !! "api_key" = Some k → validate_api_key_format k = true →
     config !! "endpoint" = Some (PyStr u) → u ≠ "" →
     (urlparse (PyStr u) = Raise ValueError
      ∨ urlparse (PyStr u) = Raise AttributeError
      ∨ ∃ r, urlparse (PyStr u) = Ok r ∧ (scheme r = "" ∨ netloc r = "")) →
     validate_config config
     = Raise (LogwellError "Invalid endpoint URL" INVALID_CONFIG))
  ∧ (ParseErrorsOnly → ∀ v, ∃ b, _is_valid_url v = Ok b).
Proof.
  split; [|exact is_valid_url_total].
  intros config k u Hk Fk He Hu Hbad.
  assert (_is_valid_url (PyStr u) = Ok false) as Hurl.
  { unfold _is_valid_url.
    destruct Hbad as [-> | [-> | (r & -> & [-> | ->])]]; try done.
    simpl. by rewrite andb_false_r. }
  apply (first_violation config 3%nat {| violated := λ config,
                           match config !! "endpoint" with
                           | Some v => negb <$> _is_valid_url v
                           | None => Ok true
                           end;
                         reason := "Invalid endpoint URL" |}); [done| |].
  - intros [|[|[|j]]] chk' Hj; [..|lia]; intros [= <-]; cbn [violated];
      unfold missing_or_empty.
    + by rewrite Hk, (valid_key_truthy _ Fk).
    + rewrite He. simpl. by destruct u.
    + by rewrite Hk, Fk.
  - cbn [violated]. by rewrite He, Hurl.
Qed.

(** C4, amended.  When [validate_config] succeeds on an input whose
    endpoint is a string and whose supplied optional core fields have
    their declared types (integer batch_size, max_queue_size and
    max_retries, an integer or non-NaN float flush_interval, a boolean
    capture_source_location), the result holds an api_key string that the
    shape predicate accepts, a non-empty endpoint string that the URL
    predicate accepts, a positive integer batch_size, a positive number
    flush_interval, a positive integer max_queue_size, a non-negative
    integer max_retries and a boolean capture_source_location. *)
Theorem typed_output (config m : gmap string PyVal) :
  validate_config config = Ok m →
  supplied "endpoint" Py.is_str config →
  supplied "batch_size" is_int config →
  supplied "flush_interval" is_real config →
  supplied "max_queue_size" is_int config →
  supplied "max_retries" is_int config →
  supplied "capture_source_location" is_bool config →
  (∃ s, m !! "api_key" = Some (PyStr s)
        ∧ validate_api_key_format (PyStr s) = true)
  ∧ (∃ u, m !! "endpoint" = Some (PyStr u) ∧ u ≠ ""
          ∧ _is_valid_url (PyStr u) = Ok true)
  ∧ (∃ n, m !! "batch_size" = Some (PyInt n) ∧ 0 < n)
  ∧ (∃ v, m !! "flush_interval" = Some v
          ∧ is_number v = true ∧ is_positive v = true)
  ∧ (∃ n, m !! "max_queue_size" = Some (PyInt n) ∧ 0 < n)
  ∧ (∃ n, m !! "max_retries" = Some (PyInt n) ∧ 0 ≤ n)
  ∧ (∃ b, m !! "capture_source_location" = Some (PyBool b)).
Proof.
  intros (k & e & Hk & He & Tk & Te & Fk & Ue & B1 & B2 & B3 & B4 & ->)%validate_config_ok_iff.
  intros Se S1 S2 S3 S4 S5.
  destruct (spec_merged_core config k e) as (-> & -> & -> & -> & -> & -> & ->).
  unfold supplied, out_of_bound in *.
  repeat split.
  - pose proof Fk as (s & [-> | ->] & _)%validate_api_key_format_iff; eauto.
  - specialize (Se e He). destruct e as [| | | |u| |]; try done.
    exists u. repeat split; try done. by intros ->.
  - destruct (config !! "batch_size") as [v|]; [|by exists 50].
    specialize (S1 v eq_refl). destruct v as [| |n| | | |]; try done.
    exists n. split; [done|]. injection B1 as B1. by apply Z.leb_gt in B1.
  - destruct (config !! "flush_interval") as [v|].
    2: { eexists. split; [done|]. by vm_compute. }
    specialize (S2 v eq_refl). exists v. split; [done|].
    destruct v as [| |n|x| | |]; try done; simpl in *; injection B2 as B2.
    + split; [done|]. apply Z.ltb_lt. apply Z.leb_gt in B2. lia.
    + split; [done|]. by apply float_not_le_zero.
  - destruct (config !! "max_queue_size") as [v|]; [|by exists 1000].
    specialize (S3 v eq_refl). destruct v as [| |n| | | |]; try done.
    exists n. split; [done|]. injection B3 as B3. by apply Z.leb_gt in B3.
  - destruct (config !! "max_retries") as [v|]; [|by exists 3].
    specialize (S4 v eq_refl). destruct v as [| |n| | | |]; try done.
    exists n. split; [done|]. injection B4 as B4. by apply Z.ltb_ge in B4.
  - destruct (config !! "capture_source_location") as [v|]; [|by exists false].
    specialize (S5 v eq_refl). destruct v; try done. eauto.
Qed.

(** C9.  On success each of service, on_error and on_flush is in the result
    if and only if it was in the input, with the same value. *)
Theorem passthrough_iff (config m : gmap string PyVal) :
  validate_config config = Ok m →
  ∀ key, key ∈ passthrough_keys → m !! key = config !! key.
Proof.
  intros (k & e & _ & _ & _ & _ & _ & _ & _ & _ & _ & _ & ->)%validate_config_ok_iff.
  intros key Hkey. by apply spec_merged_passthrough.
Qed.

(** C10.  On success the result has no key besides the seven core fields
    and service, on_error, on_flush: any other key of the input is
    dropped. *)
Theorem no_other_keys (config m : gmap string PyVal) :
  validate_config config = Ok m →
  ∀ key, key ∉ core_keys → key ∉ passthrough_keys → m !! key = None.
Proof.
  intros (k & e & _ & _ & _ & _ & _ & _ & _ & _ & _ & _ & ->)%validate_config_ok_iff.
  intros key Hc Hp. by apply spec_merged_other.
Qed.

End Claims.

(** The reference library accepts a configuration whose fields all pass. *)
Ltac accepted :=
  apply validate_config_ok_iff;
  exists (PyStr example_key), (PyStr example_url);
  repeat apply conj; [vm_compute; reflexivity .. | reflexivity].

Ltac not_listed :=
  let Hin := fresh "Hin" in
  rewrite !elem_of_cons, elem_of_nil; intros Hin;
  repeat (destruct Hin as [Hin|Hin]; [discriminate Hin|]); exact Hin.

(** ** The reference library

    The reference [urlparse] raises nothing but the two exceptions that
    [_is_valid_url] catches. *)
Lemma reference_parse_errors_only : ParseErrorsOnly (lib:=reference_urllib).
Proof.
  intros v e. unfold urlparse, reference_urllib, Urllib.urlparse.
  assert (∀ s, Urllib.urlsplit s = Raise e → e = ValueError) as Hsplit.
  { intros s. unfold Urllib.urlsplit. destruct (Urllib.split_scheme _) as [sch url].
    repeat case_match; congruence. }
  destruct v; repeat case_match; first
    [ intros ->%Hsplit; by left
    | intros [= <-]; by (left + right) ].
Qed.

(** C1 on Example 1 of the specification. *)
Lemma defaults_applied_witness :
  ∃ m, validate_config (lib:=reference_urllib) example_config = Ok m
    ∧ m !! "batch_size" = Some (PyInt 50)
    ∧ m !! "flush_interval" = Some (PyFloat 5%float)
    ∧ m !! "max_queue_size" = Some (PyInt 1000)
    ∧ m !! "max_retries" = Some (PyInt 3)
    ∧ m !! "capture_source_location" = Some (PyBool false).
Proof.
  apply (defaults_applied (lib:=reference_urllib) example_config example_key
           example_url); (vm_compute; done).
Defined.

(** C2 as stated fails: with a string as batch_size and flush_interval -1
    the comparison of batch_size raises [TypeError], and no
    [LogwellError] is reported for the flush interval out of bounds. *)
Lemma type_error_before_later_check :
  text_before_bad_option !! "flush_interval" = Some (PyInt (-1))
  ∧ validate_config (lib:=reference_urllib) text_before_bad_option
    = Raise TypeError.
Proof. split; vm_compute; reflexivity. Qed.

(** C2, amended, on Example 4 of the specification: batch_size -1. *)
Lemma first_violation_reported_witness :
  validate_config (lib:=reference_urllib) (with_option "batch_size" (PyInt (-1)))
  = Raise (LogwellError "batch_size must be positive" INVALID_CONFIG).
Proof.
  refine (proj1 (first_violation_reported (lib:=reference_urllib)
                   (with_option "batch_size" (PyInt (-1)))) _ _ _ 4%nat
            {| broken := supplied_but_not "batch_size" is_positive;
               message := "batch_size must be positive" |} _ _ _).
  - exact reference_parse_errors_only.
  - intros key v. unfold numeric_keys. rewrite !elem_of_cons, elem_of_nil.
    intros [-> | [-> | [-> | [-> | []]]]]; vm_compute; intros [= <-]; done.
  - intros s. unfold with_option, example_config.
    rewrite !lookup_insert_ne by done. rewrite lookup_insert_eq.
    intros [= Hs]. destruct (spec_api_key_shape s) eqn:Hshape; [|done].
    apply shape_iff in Hshape as (body & -> & Hlen & _).
    assert (String.length (lw body ++ nl) = 36%nat) as Hl36.
    { clear Hs. unfold lw. rewrite !append_cons. simpl. f_equal. f_equal. f_equal.
      revert Hlen. generalize 32%nat. induction body as [|c body IH]; intros n Hn.
      - by subst n.
      - rewrite append_cons. simpl in *. destruct n as [|n]; [done|].
        f_equal. apply IH. by injection Hn. }
    rewrite <- Hs in Hl36. done.
  - reflexivity.
  - intros [|[|[|[|j]]]] c' Hj; [..|lia]; intros [= <-]; vm_compute; reflexivity.
  - vm_compute; reflexivity.
Defined.

(** C3 as stated fails: a string supplied for batch_size makes the
    comparison raise [TypeError], which reaches the caller. *)
Lemma non_numeric_option_raises_type_error :
  validate_config (lib:=reference_urllib) (with_option "batch_size" (PyStr "10"))
  = Raise TypeError.
Proof. (vm_compute; done). Qed.

(** C3, amended, on a configuration with batch_size -1. *)
Lemma only_invalid_config_witness :
  (∃ m, validate_config (lib:=reference_urllib)
          (with_option "batch_size" (PyInt (-1))) = Ok m)
  ∨ (∃ msg, msg ∈ invalid_config_reasons
       ∧ validate_config (lib:=reference_urllib)
           (with_option "batch_size" (PyInt (-1)))
         = Raise (LogwellError msg INVALID_CONFIG)).
Proof.
  apply (only_invalid_config (lib:=reference_urllib)).
  - exact reference_parse_errors_only.
  - intros key v. unfold numeric_keys. rewrite !elem_of_cons, elem_of_nil.
    intros [-> | [-> | [-> | [-> | []]]]]; vm_compute; by intros [= <-].
Defined.

(** C4 as stated fails: batch_size 2.5 is accepted and returned, and it is
    not an integer. *)
Lemma fractional_batch_size_accepted :
  ∃ m, validate_config (lib:=reference_urllib)
         (with_option "batch_size" (PyFloat 2.5%float)) = Ok m
       ∧ m !! "batch_size" = Some (PyFloat 2.5%float)
       ∧ is_int (PyFloat 2.5%float) = false.
Proof.
  exists (example_merged (with_option "batch_size" (PyFloat 2.5%float))).
  repeat apply conj; [accepted | vm_compute; reflexivity ..].
Qed.

(** C4, amended, on a configuration with batch_size 1. *)
Lemma typed_output_witness :
  ∃ n, example_merged (with_option "batch_size" (PyInt 1)) !! "batch_size"
       = Some (PyInt n) ∧ 0 < n.
Proof.
  refine (proj1 (proj2 (proj2
    (typed_output (lib:=reference_urllib) (with_option "batch_size" (PyInt 1))
       (example_merged (with_option "batch_size" (PyInt 1))) _ _ _ _ _ _ _)))).
  - accepted.
  - intros v. vm_compute. by intros [= <-].
  - intros v. vm_compute. by intros [= <-].
  - intros v. (vm_compute; done).
  - intros v. (vm_compute; done).
  - intros v. (vm_compute; done).
  - intros v. (vm_compute; done).
Defined.

(** C5.  The shape predicate accepts a key of the required shape followed
    by a line feed: 36 characters, which the documented shape excludes. *)
Theorem trailing_newline_accepted :
  validate_api_key_format (PyStr (example_key ++ nl)) = true
  ∧ String.length (example_key ++ nl) = 36%nat
  ∧ spec_api_key_shape (example_key ++ nl) = false.
Proof. repeat split; (vm_compute; done). Qed.

(** C6 as stated fails: the empty string parses with neither scheme nor
    host, and the failure is "endpoint is required". *)
Lemma empty_endpoint_is_required :
  urlparse (UrlLib:=reference_urllib) (PyStr "")
  = Ok {| scheme := ""; netloc := "" |}
  ∧ validate_config (lib:=reference_urllib) (with_option "endpoint" (PyStr ""))
    = Raise (LogwellError "endpoint is required" INVALID_CONFIG).
Proof. split; (vm_compute; done). Qed.

(** C6, amended, on an endpoint that [urlparse] refuses and on one with
    neither scheme nor host. *)
Lemma invalid_url_rejected_witness :
  validate_config (lib:=reference_urllib) (with_option "endpoint" (PyStr "http://[::1"))
  = Raise (LogwellError "Invalid endpoint URL" INVALID_CONFIG)
  ∧ validate_config (lib:=reference_urllib) (with_option "endpoint" (PyStr "not a url"))
    = Raise (LogwellError "Invalid endpoint URL" INVALID_CONFIG).
Proof.
  split.
  - apply (proj1 (invalid_url_rejected (lib:=reference_urllib)) _
             (PyStr example_key) "http://[::1"); try (vm_compute; done).
    left. (vm_compute; done).
  - apply (proj1 (invalid_url_rejected (lib:=reference_urllib)) _
             (PyStr example_key) "not a url"); try (vm_compute; done).
    right; right. eexists. split; [(vm_compute; done)|]. by left.
Defined.

(** C7 as stated fails: with batch_size -1 and flush_interval -1 the reason
    is that of batch_size, not that of flush_interval. *)
Lemma earlier_option_reported :
  two_bad_options !! "flush_interval" = Some (PyInt (-1))
  ∧ validate_config (lib:=reference_urllib) two_bad_options
    = Raise (LogwellError "batch_size must be positive" INVALID_CONFIG).
Proof. split; (vm_compute; done). Qed.

(** C7, amended, on the boundary values: batch_size 1, the smallest
    positive float as flush_interval, max_queue_size 1, max_retries 0. *)
Lemma bounds_enforced_witness :
  validate_config (lib:=reference_urllib) boundary_options
  = Ok (example_merged boundary_options).
Proof.
  refine (proj2 (proj2 (proj2 (proj2
    (bounds_enforced (lib:=reference_urllib) boundary_options
       (PyStr example_key) (PyStr example_url) _ _ _ _ _)))) _ _ _ _);
    try ((vm_compute; done));
    intros v; vm_compute; by intros [= <-].
Defined.

(** C8 on the result for the boundary values. *)
Lemma validation_idempotent_witness :
  validate_config (lib:=reference_urllib) (example_merged boundary_options)
  = Ok (example_merged boundary_options).
Proof.
  apply (validation_idempotent (lib:=reference_urllib) boundary_options). accepted.
Defined.

(** C9 on Example 5 of the specification: service "checkout". *)
Lemma passthrough_iff_witness :
  example_merged with_service !! "service" = Some (PyStr "checkout")
  ∧ example_merged with_service !! "on_error" = None.
Proof.
  assert (validate_config (lib:=reference_urllib) with_service
          = Ok (example_merged with_service)) as Hok by accepted.
  split.
  - rewrite (passthrough_iff (lib:=reference_urllib) _ _ Hok "service").
    + vm_compute; reflexivity.
    + repeat constructor.
  - rewrite (passthrough_iff (lib:=reference_urllib) _ _ Hok "on_error").
    + vm_compute; reflexivity.
    + repeat constructor.
Defined.

(** C10 on a configuration with the unrecognized key "debug". *)
Lemma no_other_keys_witness :
  with_service !! "debug" = Some (PyBool true)
  ∧ example_merged with_service !! "debug" = None.
Proof.
  split; [vm_compute; reflexivity|].
  apply (no_other_keys (lib:=reference_urllib) with_service).
  - accepted.
  - unfold core_keys. rewrite !elem_of_cons, elem_of_nil.
    intros Hin. repeat (destruct Hin as [Hin|Hin]; [discriminate Hin|]). exact Hin.
  - unfold passthrough_keys. rewrite !elem_of_cons, elem_of_nil.
    intros Hin. repeat (destruct Hin as [Hin|Hin]; [discriminate Hin|]). exact Hin.
Defined.

(** * Further properties *)

Ltac lookup_inserts :=
  repeat first
    [ rewrite lookup_insert_eq
    | rewrite lookup_insert_ne by (first [discriminate | congruence])
    | rewrite lookup_empty ].

(** X1.  [validate_api_key_format] returns [True] exactly on the strings
    made of [lw_] and 32 characters among letters, digits, hyphen and
    underscore, optionally followed by one line feed; on every other
    value, string or not, it returns [False]. *)
Theorem api_key_format_accepts v :
  validate_api_key_format v = true ↔
  ∃ body, String.length body = 32%nat ∧ Str.all spec_key_char body = true
          ∧ (v = PyStr (lw body) ∨ v = PyStr (lw body ++ nl)).
Proof.
  rewrite validate_api_key_format_iff. split.
  - intros (s & Hv & (body & -> & Hl & Ha)%shape_iff). by exists body.
  - intros (body & Hl & Ha & Hv). exists (lw body). split; [done|].
    apply shape_iff. by exists body.
Qed.

Lemma float_nan_compare (x : float) :
  PrimFloat.eqb x x = false →
  PrimFloat.leb x 0%float = false ∧ PrimFloat.ltb 0%float x = false.
Proof.
  rewrite FloatAxioms.leb_spec, FloatAxioms.ltb_spec, FloatAxioms.eqb_spec.
  change (Prim2SF 0%float) with (S754_zero false).
  destruct (Prim2SF x) as [s|s| |s m e]; try destruct s; cbn; try done.
  all: unfold SFeqb, SFcompare; rewrite ?Z.compare_refl, ?Pos.compare_refl;
    try done.
Qed.

Section Extras.
Context {lib : UrlLib}.

(** X2.  [validate_config] succeeds exactly when api_key is present with a
    value the shape predicate accepts, endpoint is present, true and
    accepted by the URL predicate, and each supplied numeric option
    compares as not [<= 0] (not [< 0] for max_retries); the result is then
    the record [spec_merged]. *)
Theorem success_characterised (config m : gmap string PyVal) :
  validate_config config = Ok m ↔
  ∃ k e,
    config !! "api_key" = Some k ∧ config !! "endpoint" = Some e
    ∧ Py.truthy e = true
    ∧ validate_api_key_format k = true ∧ _is_valid_url e = Ok true
    ∧ (∀ v, config !! "batch_size" = Some v → Py.le_zero v = Ok false)
    ∧ (∀ v, config !! "flush_interval" = Some v → Py.le_zero v = Ok false)
    ∧ (∀ v, config !! "max_queue_size" = Some v → Py.le_zero v = Ok false)
    ∧ (∀ v, config !! "max_retries" = Some v → Py.lt_zero v = Ok false)
    ∧ m = spec_merged config k e.
Proof.
  assert (∀ key cmp, out_of_bound key cmp config = Ok false
            ↔ ∀ v, config !! key = Some v → cmp v = Ok false) as Hb.
  { intros key cmp. unfold out_of_bound. destruct (config !! key) as [v|].
    - split; [by intros ? ? [= <-]|auto].
    - split; [done|auto]. }
  rewrite validate_config_ok_iff. split.
  - intros (k & e & Hk & He & Tk & Te & Fk & Ue & B1 & B2 & B3 & B4 & ->).
    exists k, e. rewrite <- !Hb. done.
  - intros (k & e & Hk & He & Te & Fk & Ue & B1 & B2 & B3 & B4 & ->).
    exists k, e. rewrite !Hb. repeat apply conj; try done.
    by apply valid_key_truthy.
Qed.

(** X3.  On success the result has all seven core keys, and every core
    field the caller supplied is returned with the supplied value: a
    default never replaces it. *)
Theorem core_fields_kept (config m : gmap string PyVal) :
  validate_config config = Ok m →
  ∀ key, key ∈ core_keys →
    is_Some (m !! key)
    ∧ ∀ v, config !! key = Some v → m !! key = Some v.
Proof.
  intros (k & e & Hk & He & _ & _ & _ & _ & _ & _ & _ & _ & ->)%validate_config_ok_iff.
  destruct (spec_merged_core config k e) as (M1 & M2 & M3 & M4 & M5 & M6 & M7).
  intros key. unfold core_keys. rewrite !elem_of_cons, elem_of_nil.
  intros [-> | [-> | [-> | [-> | [-> | [-> | [-> | []]]]]]]];
    (split; [by eexists|]); intros v Hv.
  - rewrite M1. congruence.
  - rewrite M2. congruence.
  - by rewrite M3, Hv.
  - by rewrite M4, Hv.
  - by rewrite M5, Hv.
  - by rewrite M6, Hv.
  - by rewrite M7, Hv.
Qed.

Lemma run_checks_insert_other cs (config : gmap string PyVal) key v :
  Forall (λ chk, violated chk (<[key := v]> config) = violated chk config) cs →
  run_checks cs (<[key := v]> config) = run_checks cs config.
Proof.
  induction 1 as [|chk cs Hchk _ IH]; simpl; [done|]. by rewrite Hchk, IH.
Qed.

Lemma code_checks_read (config : gmap string PyVal) key v :
  key ∉ checked_keys →
  Forall (λ chk, violated chk (<[key := v]> config) = violated chk config)
    code_checks.
Proof.
  unfold checked_keys, numeric_keys. rewrite !elem_of_cons, elem_of_nil.
  intros Hkey.
  unfold code_checks. repeat apply Forall_cons_2; [..|apply Forall_nil_2];
    cbn [violated]; unfold missing_or_empty, out_of_bound;
    by rewrite lookup_insert_ne by (intros ->; tauto).
Qed.

(** X4.  A key that is neither a core field nor service, on_error or
    on_flush is never read: adding it to a configuration changes neither
    the result nor the failure. *)
Theorem unknown_key_ignored (config : gmap string PyVal) key v :
  key ∉ core_keys → key ∉ passthrough_keys →
  validate_config (<[key := v]> config) = validate_config config.
Proof.
  intros Hc Hp. rewrite !validate_config_spec.
  assert (key ∉ checked_keys) as Hchk.
  { revert Hc. unfold core_keys, checked_keys, numeric_keys.
    rewrite !elem_of_cons, !elem_of_nil. tauto. }
  rewrite (run_checks_insert_other _ _ _ _ (code_checks_read config key v Hchk)).
  assert (key ≠ "api_key" ∧ key ≠ "endpoint") as [N1 N2].
  { unfold core_keys in Hc. rewrite !elem_of_cons in Hc. split; intros ->; tauto. }
  unfold Py.getitem. rewrite !lookup_insert_ne by done.
  destruct (run_checks code_checks config) as [[]|]; [|done].
  destruct (config !! "api_key") as [k|]; [|done].
  destruct (config !! "endpoint") as [e|]; [|done].
  cbn [mbind PyResult_bind]. f_equal. apply map_eq. intros i.
  rewrite !spec_merged_lookup. unfold spec_field.
  destruct (decide (key = i)) as [<-|Hne].
  - unfold core_keys in Hc. rewrite !elem_of_cons, elem_of_nil in Hc.
    repeat (case_decide; [tauto|]). done.
  - by rewrite !lookup_insert_ne by done.
Qed.

Lemma run_checks_raise_first cs (config : gmap string PyVal) e :
  run_checks cs config = Raise e →
  ∃ i chk, cs !! i = Some chk
    ∧ (∀ j chk', (j < i)%nat → cs !! j = Some chk' →
                 violated chk' config = Ok false)
    ∧ (violated chk config = Raise e
       ∨ violated chk config = Ok true
         ∧ e = LogwellError (reason chk) INVALID_CONFIG).
Proof.
  induction cs as [|c0 cs IH]; simpl; [done|].
  destruct (violated c0 config) as [[]|e'] eqn:Hv.
  - intros [= <-]. exists 0%nat, c0. repeat split; [intros; lia|by right].
  - intros (i & chk & Hi & Hbefore & Hchk)%IH. exists (S i), chk.
    repeat split; [done| |done].
    intros [|j] chk' Hj; simpl; [by intros [= <-]|].
    apply Hbefore. lia.
  - intros [= <-]. exists 0%nat, c0. repeat split; [intros; lia|by left].
Qed.

Lemma code_check_raises (config : gmap string PyVal) chk e :
  ParseErrorsOnly → chk ∈ code_checks → violated chk config = Raise e →
  e = TypeError
  ∧ ∃ key v, key ∈ numeric_keys ∧ config !! key = Some v
             ∧ is_number v = false.
Proof.
  intros Hlib Hin.
  assert (∀ key cmp, key ∈ numeric_keys → cmp = Py.le_zero ∨ cmp = Py.lt_zero →
            out_of_bound key cmp config = Raise e →
            e = TypeError
            ∧ ∃ key v, key ∈ numeric_keys ∧ config !! key = Some v
                       ∧ is_number v = false) as Hcmp.
  { intros key cmp Hkey Hc. unfold out_of_bound.
    destruct (config !! key) as [v|] eqn:Hv; [|done]. intros Hr.
    assert (e = TypeError ∧ is_number v = false) as [-> Hn].
    { destruct Hc as [-> | ->]; destruct v; simpl in Hr; by try injection Hr as <-. }
    split; [done|]. by exists key, v. }
  unfold code_checks in Hin. rewrite !elem_of_cons, elem_of_nil in Hin.
  unfold numeric_keys in Hcmp.
  destruct Hin as [-> | [-> | [-> | [-> | [-> | [-> | [-> | [-> | []]]]]]]]];
    cbn [violated]; unfold missing_or_empty;
    try (apply Hcmp; [rewrite !elem_of_cons; tauto | tauto]).
  - by destruct (config !! "api_key").
  - by destruct (config !! "endpoint").
  - by destruct (config !! "api_key").
  - destruct (config !! "endpoint") as [u|]; [|done].
    destruct (is_valid_url_total Hlib u) as [b ->]. done.
Qed.

Lemma checks_pass_result (config : gmap string PyVal) :
  run_checks code_checks config = Ok () →
  ∃ m, validate_config config = Ok m.
Proof.
  intros Hrun. rewrite validate_config_spec, Hrun.
  apply run_checks_ok in Hrun. unfold code_checks in Hrun.
  rewrite !Forall_cons in Hrun. destruct Hrun as (H1 & H2 & _).
  cbn [violated] in H1, H2. unfold missing_or_empty in H1, H2.
  destruct (config !! "api_key") as [k|] eqn:Hk; [|done].
  destruct (config !! "endpoint") as [e|] eqn:He; [|done].
  rewrite (getitem_Some _ _ _ Hk), (getitem_Some _ _ _ He). by eexists.
Qed.

Lemma validate_config_raise (config : gmap string PyVal) e :
  validate_config config = Raise e ↔ run_checks code_checks config = Raise e.
Proof.
  destruct (run_checks code_checks config) as [[]|e'] eqn:Hrun.
  - destruct (checks_pass_result config Hrun) as [m ->]. done.
  - rewrite validate_config_spec, Hrun. cbn [mbind PyResult_bind].
    split; by intros [= ->].
Qed.

(** X5.  On a configuration whose values are of the kinds of [PyVal]
    ([None], [bool], [int], [float], [str], [bytes], a function), when
    [urlparse] raises nothing but [ValueError] and [AttributeError],
    every exception of [validate_config] is either a
    [LogwellError] with code [INVALID_CONFIG] and one of the eight reasons,
    or a [TypeError], and then some supplied numeric option is not a
    number.  No [KeyError] is ever raised. *)
Theorem exceptions_classified (config : gmap string PyVal) e :
  ParseErrorsOnly → validate_config config = Raise e →
  (∃ msg, msg ∈ invalid_config_reasons ∧ e = LogwellError msg INVALID_CONFIG)
  ∨ (e = TypeError
     ∧ ∃ key v, key ∈ numeric_keys ∧ config !! key = Some v
                ∧ is_number v = false).
Proof.
  intros Hlib (chk & Hin & Hchk)%validate_config_raise%run_checks_raise.
  destruct Hchk as [Hr | [_ ->]].
  - right. by apply (code_check_raises config chk).
  - left. exists (reason chk). split; [|done].
    unfold code_checks in Hin. rewrite !elem_of_cons, elem_of_nil in Hin.
    unfold invalid_config_reasons. rewrite !elem_of_cons.
    destruct Hin as [-> | [-> | [-> | [-> | [-> | [-> | [-> | [-> | []]]]]]]]];
      cbn [reason]; tauto.
Qed.

(** X6.  Under the same assumption a [LogwellError] identifies the check
    that failed: its reason is that of a check of [code_checks] which the
    configuration violates, and every check before that one passes. *)
Theorem failure_diagnosed (config : gmap string PyVal) msg code :
  ParseErrorsOnly →
  validate_config config = Raise (LogwellError msg code) →
  ∃ i chk, code_checks !! i = Some chk ∧ reason chk = msg
    ∧ violated chk config = Ok true
    ∧ ∀ j chk', (j < i)%nat → code_checks !! j = Some chk' →
                violated chk' config = Ok false.
Proof.
  intros Hlib (i & chk & Hi & Hbefore & Hchk)%validate_config_raise%run_checks_raise_first.
  exists i, chk. destruct Hchk as [Hr | [Hv [= -> ->]]]; [|done].
  apply (code_check_raises config chk) in Hr as [[=] _]; [done|].
  by apply list_elem_of_lookup_2 in Hi.
Qed.

(** X9.  The values of capture_source_location, service, on_error and
    on_flush are not validated: setting any of them, to any value, neither
    causes nor removes a failure. *)
Theorem unvalidated_keys_never_fail (config : gmap string PyVal) key v e :
  key ∈ unvalidated_keys →
  validate_config (<[key := v]> config) = Raise e
  ↔ validate_config config = Raise e.
Proof.
  intros Hkey. rewrite !validate_config_raise.
  rewrite (run_checks_insert_other _ config key v); [done|].
  apply code_checks_read. revert Hkey.
  unfold unvalidated_keys, passthrough_keys, checked_keys, numeric_keys.
  rewrite !elem_of_cons, !elem_of_nil.
  intros [-> | [-> | [-> | [-> | []]]]] Hin;
    repeat (destruct Hin as [Hin|Hin]; [discriminate Hin|]); done.
Qed.

(** X7.  The defaults are within the bounds they are checked against:
    [DEFAULT_CONFIG] completed with a key of the required shape and a
    valid endpoint is accepted and returned as it is. *)
Theorem defaults_are_valid s e :
  spec_api_key_shape s = true → Py.truthy e = true →
  _is_valid_url e = Ok true →
  validate_config (<["api_key" := PyStr s]> (<["endpoint" := e]> DEFAULT_CONFIG))
  = Ok (<["api_key" := PyStr s]> (<["endpoint" := e]> DEFAULT_CONFIG)).
Proof.
  intros Hs Te Ue.
  assert (validate_api_key_format (PyStr s) = true) as Fk.
  { apply validate_api_key_format_iff. exists s. auto. }
  apply validate_config_ok_iff. exists (PyStr s), e.
  unfold out_of_bound, DEFAULT_CONFIG. lookup_inserts.
  repeat apply conj; try done.
  by apply valid_key_truthy.
Qed.

(** X8.  A NaN flush_interval passes the bound check, since NaN does not
    compare [<= 0]: with the other fields valid the configuration is
    accepted and the NaN, which is not positive, is returned. *)
Theorem nan_passes_bound_check (config : gmap string PyVal) k e v :
  config !! "api_key" = Some k → validate_api_key_format k = true →
  config !! "endpoint" = Some e → Py.truthy e = true →
  _is_valid_url e = Ok true →
  supplied "batch_size" is_positive config →
  config !! "flush_interval" = Some v → is_nan v = true →
  supplied "max_queue_size" is_positive config →
  supplied "max_retries" is_non_negative config →
  ∃ m, validate_config config = Ok m
       ∧ m !! "flush_interval" = Some v ∧ is_positive v = false.
Proof.
  intros Hk Fk He Te Ue S1 Hv Hnan S3 S4.
  destruct v as [| | |x| | |]; try done. simpl in Hnan.
  apply negb_true_iff, float_nan_compare in Hnan as [Hle Hlt].
  exists (spec_merged config k e). repeat apply conj.
  - apply validate_config_ok_iff. exists k, e.
    rewrite (supplied_bound _ _ Py.le_zero _ positive_le_zero S1).
    rewrite (supplied_bound _ _ Py.le_zero _ positive_le_zero S3).
    rewrite (supplied_bound _ _ Py.lt_zero _ non_negative_lt_zero S4).
    unfold out_of_bound. rewrite Hv. simpl. rewrite Hle.
    repeat apply conj; try done. by apply valid_key_truthy.
  - destruct (spec_merged_core config k e) as (_ & _ & _ & -> & _).
    by rewrite Hv.
  - done.
Qed.

End Extras.

(** X3 on the boundary values: the supplied max_retries 0 is kept. *)
Lemma core_fields_kept_witness :
  example_merged boundary_options !! "max_retries" = Some (PyInt 0).
Proof.
  refine (proj2 (core_fields_kept (lib:=reference_urllib) boundary_options
                   (example_merged boundary_options) _ "max_retries" _)
            (PyInt 0) _).
  - accepted.
  - repeat constructor.
  - vm_compute; reflexivity.
Defined.

(** X4 on the unrecognized key "debug". *)
Lemma unknown_key_ignored_witness :
  validate_config (lib:=reference_urllib) with_service
  = validate_config (lib:=reference_urllib)
      (with_option "service" (PyStr "checkout")).
Proof.
  apply (unknown_key_ignored (lib:=reference_urllib)
           (with_option "service" (PyStr "checkout")) "debug" (PyBool true)).
  - unfold core_keys. not_listed.
  - unfold passthrough_keys. not_listed.
Defined.

(** X5 on a string supplied for batch_size. *)
Lemma exceptions_classified_witness :
  (∃ msg, msg ∈ invalid_config_reasons
          ∧ TypeError = LogwellError msg INVALID_CONFIG)
  ∨ (TypeError = TypeError
     ∧ ∃ key v, key ∈ numeric_keys
                ∧ with_option "batch_size" (PyStr "10") !! key = Some v
                ∧ is_number v = false).
Proof.
  apply (exceptions_classified (lib:=reference_urllib)
           (with_option "batch_size" (PyStr "10")) TypeError).
  - exact reference_parse_errors_only.
  - vm_compute; reflexivity.
Defined.

(** X6 on Example 3 of the specification: api_key "bad-key". *)
Lemma failure_diagnosed_witness :
  ∃ i chk, code_checks (lib:=reference_urllib) !! i = Some chk
    ∧ reason chk = "Invalid API key format. Expected: lw_[32 characters]"
    ∧ violated chk (with_option "api_key" (PyStr "bad-key")) = Ok true
    ∧ ∀ j chk', (j < i)%nat → code_checks (lib:=reference_urllib) !! j = Some chk' →
        violated chk' (with_option "api_key" (PyStr "bad-key")) = Ok false.
Proof.
  apply (failure_diagnosed (lib:=reference_urllib)
           (with_option "api_key" (PyStr "bad-key")) _ INVALID_CONFIG).
  - exact reference_parse_errors_only.
  - vm_compute; reflexivity.
Defined.

(** X7 on the sample key and endpoint. *)
Lemma defaults_are_valid_witness :
  validate_config (lib:=reference_urllib)
    (<["api_key" := PyStr example_key]>
       (<["endpoint" := PyStr example_url]> DEFAULT_CONFIG))
  = Ok (<["api_key" := PyStr example_key]>
          (<["endpoint" := PyStr example_url]> DEFAULT_CONFIG)).
Proof.
  apply (defaults_are_valid (lib:=reference_urllib)); vm_compute; reflexivity.
Defined.

(** X8 on the sample configuration with flush_interval NaN. *)
Lemma nan_passes_bound_check_witness :
  ∃ m, validate_config (lib:=reference_urllib)
         (with_option "flush_interval" (PyFloat nan)) = Ok m
       ∧ m !! "flush_interval" = Some (PyFloat nan)
       ∧ is_positive (PyFloat nan) = false.
Proof.
  apply (nan_passes_bound_check (lib:=reference_urllib)
           (with_option "flush_interval" (PyFloat nan))
           (PyStr example_key) (PyStr example_url));
    try (vm_compute; reflexivity);
    intros v; vm_compute; intros [=].
Defined.

(** X9: a string as capture_source_location leaves the batch_size failure
    as it is. *)
Lemma unvalidated_keys_never_fail_witness :
  validate_config (lib:=reference_urllib)
    (<["capture_source_location" := PyStr "yes"]>
       (with_option "batch_size" (PyInt 0)))
  = Raise (LogwellError "batch_size must be positive" INVALID_CONFIG).
Proof.
  apply (unvalidated_keys_never_fail (lib:=reference_urllib)
           (with_option "batch_size" (PyInt 0))).
  - repeat constructor.
  - vm_compute; reflexivity.
Defined.
